(** * CH-Connect: deadline classification and portfolio store

    A shallow embedding of [ch_api_server.py]: the date helpers
    ([days_until], [relative_label], [status_label]), the per-company
    classification ([company_overall_status]), the JSON-file store
    ([load_companies], [save_companies], [add_company],
    [delete_company], [refresh_all_companies]) and the "My Companies"
    page computations (filter, summary counters, CS01 sort).

    Conventions.
    - Python values that reach the modelled code come from JSON (the
      registry response, [companies.json]); they are values of [json].
      Numbers are integers; strings are byte strings, so the date parser
      is the one of CPython restricted to ASCII input.
    - [date.today()] is the section variable [today]; the HTTP client is
      the section variable [http]; the file [companies.json] and the list
      of requests sent are the two components of [world].
    - Code that can raise runs in the monad [M], a state monad over
      [world] with an exception result.
    - Of pandas and numpy the sort uses two things that depend on the
      library version: the [argsort] (parameter [argsort]) and what a
      column holds for a [None] (parameter [none_as_nan]). *)

From Stdlib Require Import ZArith String Ascii List Lia DecimalString.
From Stdlib Require Import Permutation Sorted.
From stdpp Require Import base list strings.

#[local] Set Warnings "-register-all".
Local Open Scope Z_scope.

(** ** Python values *)

Module Py.

Inductive json :=
| JNull
| JBool (b : bool)
| JNum (n : Z)
| JStr (s : string)
| JArr (items : list json)
| JObj (members : list (string * json)).

(** [bool(x)]: [None], [False], [0], [""], [[]] and [{}] are falsy. *)
Definition truthy (x : json) : bool :=
  match x with
  | JNull => false
  | JBool b => b
  | JNum n => negb (n =? 0)
  | JStr s => negb (String.eqb s "")
  | JArr items => match items with [] => false | _ => true end
  | JObj members => match members with [] => false | _ => true end
  end.

(** [x == s] for a string literal [s]. *)
Definition eq_str (x : json) (s : string) : bool :=
  match x with
  | JStr t => String.eqb t s
  | _ => false
  end.

(** [str(n)], as an f-string renders an [int]. *)
Definition str (n : Z) : string := NilZero.string_of_int (Z.to_int n).

Inductive exn := ConnectionError | JSONDecodeError | AttributeError.

End Py.
Import Py.

(** ** The fragment of [datetime] used by [days_until] *)

Module Datetime.

Record date := mkdate { year : Z; month : Z; day : Z }.

Definition _is_leap (y : Z) : bool :=
  (y mod 4 =? 0) && (negb (y mod 100 =? 0) || (y mod 400 =? 0)).

Definition _days_before_year (y : Z) : Z :=
  let y := y - 1 in y * 365 + y / 4 - y / 100 + y / 400.

Definition _DAYS_IN_MONTH : list Z :=
  [-1; 31; 28; 31; 30; 31; 30; 31; 31; 30; 31; 30; 31].

Definition _DAYS_BEFORE_MONTH : list Z :=
  [-1; 0; 31; 59; 90; 120; 151; 181; 212; 243; 273; 304; 334].

Definition _days_in_month (y m : Z) : Z :=
  if (m =? 2) && _is_leap y then 29
  else nth (Z.to_nat m) _DAYS_IN_MONTH 0.

Definition _days_before_month (y m : Z) : Z :=
  nth (Z.to_nat m) _DAYS_BEFORE_MONTH 0
  + (if (2 <? m) && _is_leap y then 1 else 0).

Definition _ymd2ord (y m d : Z) : Z :=
  _days_before_year y + _days_before_month y m + d.

Definition toordinal (d : date) : Z := _ymd2ord (year d) (month d) (day d).

(** The constructor [date(y, m, d)]; [None] stands for [ValueError]. *)
Definition date_new (y m d : Z) : option date :=
  if (1 <=? y) && (y <=? 9999) && (1 <=? m) && (m <=? 12)
     && (1 <=? d) && (d <=? _days_in_month y m)
  then Some (mkdate y m d) else None.

(** *** [strptime(s, "%Y-%m-%d")]

    [_strptime] compiles the format to the regular expression
    [(?P<Y>\d\d\d\d)-(?P<m>1[0-2]|0[1-9]|[1-9])-(?P<d>3[0-1]|[1-2]\d|0[1-9]|[1-9]| [1-9])],
    matches it at the start of the string and raises when input is
    left over.  A group is the list of its matches in the order the
    backtracking matcher tries them. *)

Definition between (lo hi c : ascii) : bool :=
  ((nat_of_ascii lo <=? nat_of_ascii c)%nat
   && (nat_of_ascii c <=? nat_of_ascii hi)%nat)%bool.

Definition is_digit (c : ascii) : bool := between "0" "9" c.

Definition int_of_digit (c : ascii) : Z := Z.of_nat (nat_of_ascii c) - 48.

Definition re_Y (s : list ascii) : list (Z * list ascii) :=
  match s with
  | a :: b :: c :: d :: rest =>
      if is_digit a && is_digit b && is_digit c && is_digit d
      then [(1000 * int_of_digit a + 100 * int_of_digit b
             + 10 * int_of_digit c + int_of_digit d, rest)]
      else []
  | _ => []
  end.

Definition re_two (lo1 hi1 lo2 hi2 : ascii) (s : list ascii)
  : list (Z * list ascii) :=
  match s with
  | a :: b :: rest =>
      if between lo1 hi1 a && between lo2 hi2 b
      then [(10 * int_of_digit a + int_of_digit b, rest)] else []
  | _ => []
  end.

Definition re_one (lo hi : ascii) (s : list ascii) : list (Z * list ascii) :=
  match s with
  | a :: rest => if between lo hi a then [(int_of_digit a, rest)] else []
  | _ => []
  end.

Definition re_lit (c : ascii) (s : list ascii) : list (list ascii) :=
  match s with
  | a :: rest => if Ascii.eqb a c then [rest] else []
  | _ => []
  end.

Definition re_m (s : list ascii) : list (Z * list ascii) :=
  re_two "1" "1" "0" "2" s ++ re_two "0" "0" "1" "9" s ++ re_one "1" "9" s.

Definition re_d (s : list ascii) : list (Z * list ascii) :=
  re_two "3" "3" "0" "1" s ++ re_two "1" "2" "0" "9" s
  ++ re_two "0" "0" "1" "9" s ++ re_one "1" "9" s
  ++ (s1 ← re_lit " " s; re_one "1" "9" s1).

Definition format_regex_match (s : list ascii)
  : option (Z * Z * Z * list ascii) :=
  head ('(y, s1) ← re_Y s;
        s2 ← re_lit "-" s1;
        '(m, s3) ← re_m s2;
        s4 ← re_lit "-" s3;
        '(d, s5) ← re_d s4;
        [(y, m, d, s5)]).

(** [datetime.strptime(s, "%Y-%m-%d").date()]; [None] stands for
    [ValueError]. *)
Definition strptime (s : string) : option date :=
  match format_regex_match (list_ascii_of_string s) with
  | Some (y, m, d, []) => date_new y m d
  | _ => None
  end.

End Datetime.
Import Datetime.

(** ** Deadline and relative-label helpers *)

Section Deadlines.

(** [date.today()] *)
Variable today : date.

Definition days_until (date_str : json) : option Z :=
  if negb (truthy date_str) || eq_str date_str "N/A" then None
  else
    match date_str with
    | JStr s =>
        match strptime s with
        | Some d => Some (toordinal d - toordinal today)
        | None => None
        end
    | _ => None
    end.

Definition plural (n : Z) : string := if negb (n =? 1) then "s" else "".

Definition relative_label (date_str : json) : string :=
  match days_until date_str with
  | None => "N/A"
  | Some d =>
      if d <? 0 then
        let days_ago := Z.abs d in
        let months_ago := days_ago / 30 in
        if months_ago =? 0 then (str days_ago ++ " days ago")%string
        else (str months_ago ++ " month" ++ plural months_ago ++ " ago")%string
      else if d <? 30 then ("in " ++ str d ++ " days")%string
      else
        let months := d / 30 in
        ("in " ++ str months ++ " month" ++ plural months)%string
  end.

Definition status_label (date_str : json) : string :=
  match days_until date_str with
  | None => "⚪ N/A"
  | Some d =>
      if d <? 0 then "🔴 Overdue"
      else if d <=? 7 then "🟠 Due in 7 days"
      else if d <=? 30 then "🟡 Due in 30 days"
      else "🟢 OK"
  end.

Definition days_remaining (date_str : json) : option Z := days_until date_str.

End Deadlines.

(** [datetime.now().strftime("%Y-%m-%d")] for a four-digit year. *)
Definition zfill (width : nat) (s : string) : string :=
  (string_of_list_ascii (repeat "0"%char (width - String.length s)) ++ s)%string.

Definition strftime (d : date) : string :=
  (zfill 4 (str (year d)) ++ "-" ++ zfill 2 (str (month d)) ++ "-"
   ++ zfill 2 (str (day d)))%string.

(** ** Company records

    The dictionaries written to [companies.json] are built in two places
    (the refresh and the "Save" button), always with these six keys; the
    registration number and the timestamp are strings, the other four
    values are whatever the registry response holds. *)

Record company := mkcompany {
  crn : string;
  name : json;
  status : json;
  accounts_due : json;
  cs_due : json;
  last_updated : string
}.

(** ** The world: the JSON file and the requests sent *)

Record world := mkworld {
  file : option (list company);   (* [None]: missing or unreadable *)
  requests : list string          (* URLs requested so far, oldest first *)
}.

Definition M (A : Type) : Type := world -> (exn + A) * world.

Definition ret {A} (a : A) : M A := fun w => (inr a, w).

Definition raise {A} (e : exn) : M A := fun w => (inl e, w).

Definition bind {A B} (c : M A) (k : A -> M B) : M B :=
  fun w =>
    match c w with
    | (inl e, w') => (inl e, w')
    | (inr a, w') => k a w'
    end.

Declare Scope py_scope.
Delimit Scope py_scope with py.
Notation "x <- c ;; k" := (bind c (fun x => k))
  (at level 100, c at next level, right associativity) : py_scope.
Notation "c ;;; k" := (bind c (fun _ => k))
  (at level 100, right associativity) : py_scope.

(** ** JSON storage helpers *)

Definition load_companies : M (list company) :=
  fun w => (inr (match file w with Some data => data | None => [] end), w).

Definition save_companies (data : list company) : M unit :=
  fun w => (inr tt, mkworld (Some data) (requests w)).

(** The [for] loop of [add_company]: does some saved company carry this
    registration number? *)
Fixpoint crn_saved (companies : list company) (n : string) : bool :=
  match companies with
  | [] => false
  | c :: rest => if String.eqb (crn c) n then true else crn_saved rest n
  end.

Definition add_company (company_data : company) : M bool :=
  (companies <- load_companies ;;
   if crn_saved companies (crn company_data) then ret false
   else save_companies (companies ++ [company_data]) ;;; ret true)%py.

Definition delete_company (n : string) : M unit :=
  (companies <- load_companies ;;
   save_companies (filter (fun c => crn c <> n) companies))%py.

(** ** Companies House API *)

Definition BASE_URL : string := "https://api.company-information.service.gov.uk".

(** [d.get(k, default)]; only a dictionary has the method. *)
Fixpoint assoc (members : list (string * json)) (k : string) : option json :=
  match members with
  | [] => None
  | (k', v) :: rest => if String.eqb k' k then Some v else assoc rest k
  end.

Definition dict_get (d : json) (k : string) (default : json) : M json :=
  match d with
  | JObj members =>
      ret (match assoc members k with Some v => v | None => default end)
  | _ => raise AttributeError
  end.

Section API.

Variable today : date.

(** [requests.get(url, auth=...)]: the call raises, or answers with a
    status code and a body that is JSON or not. *)
Variable http : string -> exn + (Z * option json).

Definition get_json (endpoint : string) : M json :=
  fun w =>
    let url := (BASE_URL ++ endpoint)%string in
    let w' := mkworld (file w) (requests w ++ [url]) in
    match http url with
    | inl e => (inl e, w')
    | inr (status_code, body) =>
        if status_code =? 200 then
          match body with
          | Some j => (inr j, w')
          | None => (inl JSONDecodeError, w')
          end
        else (inr JNull, w')
    end.

Definition refresh_company_data (n : string) : M (option company) :=
  (profile <- get_json ("/company/" ++ n) ;;
   if negb (truthy profile) then ret None
   else
     accounts <- dict_get profile "accounts" (JObj []) ;;
     cs <- dict_get profile "confirmation_statement" (JObj []) ;;
     company_name <- dict_get profile "company_name" JNull ;;
     company_status <- dict_get profile "company_status" JNull ;;
     accounts_next_due <- dict_get accounts "next_due" (JStr "N/A") ;;
     cs_next_due <- dict_get cs "next_due" (JStr "N/A") ;;
     ret (Some {| crn := n;
                  name := company_name;
                  status := company_status;
                  accounts_due := accounts_next_due;
                  cs_due := cs_next_due;
                  last_updated := strftime today |}))%py.

Fixpoint refresh_loop (companies updated_list : list company)
  : M (list company) :=
  match companies with
  | [] => ret updated_list
  | c :: rest =>
      (updated <- refresh_company_data (crn c) ;;
       refresh_loop rest
         (match updated with
          | Some u => updated_list ++ [u]
          | None => updated_list
          end))%py
  end.

Definition refresh_all_companies : M Z :=
  (companies <- load_companies ;;
   updated_list <- refresh_loop companies [] ;;
   save_companies updated_list ;;;
   ret (Z.of_nat (length updated_list)))%py.

End API.

(** ** Overall status of a company *)

Section Portfolio.

Variable today : date.

(** [min(l)] of a non-empty list [d :: ds]. *)
Definition py_min (d : Z) (ds : list Z) : Z := fold_left Z.min ds d.

Definition company_overall_status (c : company) : string :=
  let days_list :=
    [days_remaining today (accounts_due c); days_remaining today (cs_due c)] in
  let days_list := omap id days_list in
  match days_list with
  | [] => "N/A"
  | d :: ds =>
      let min_days := py_min d ds in
      if min_days <? 0 then "Overdue"
      else if min_days <=? 7 then "Due in 7 days"
      else if min_days <=? 30 then "Due in 30 days"
      else "OK"
  end.

(** ** "My Companies" page *)

(** The options of the [st.radio] filter control. *)
Definition filter_options : list string :=
  ["All"; "Overdue"; "Due in 7 days"; "Due in 30 days"; "OK"].

Definition filtered_companies (filter_choice : string)
    (companies : list company) : list company :=
  if String.eqb filter_choice "All" then companies
  else filter (fun c => company_overall_status c = filter_choice) companies.

(** Summary counters. *)
Record counters := mkcounters { due_30 : Z; due_7 : Z; overdue : Z }.

Definition tally (acc : counters) (d : option Z) : counters :=
  match d with
  | None => acc
  | Some d =>
      if d <? 0 then mkcounters (due_30 acc) (due_7 acc) (overdue acc + 1)
      else if d <=? 7 then mkcounters (due_30 acc) (due_7 acc + 1) (overdue acc)
      else if d <=? 30 then mkcounters (due_30 acc + 1) (due_7 acc) (overdue acc)
      else acc
  end.

Definition tally_company (acc : counters) (c : company) : counters :=
  fold_left tally
    [days_remaining today (accounts_due c); days_remaining today (cs_due c)]
    acc.

Record summary := mksummary { total : Z; buckets : counters }.

Definition summary_stats (companies : list company) : summary :=
  {| total := Z.of_nat (length companies);
     buckets := fold_left tally_company companies (mkcounters 0 0 0) |}.

(** Table rows. *)
Record row := mkrow {
  col_company_name : json;
  col_company_number : string;
  col_accounts_due_date : json;
  col_accounts_deadline : string;
  col_accounts_status : string;
  col_cs01_due_date : json;
  col_cs01_deadline : string;
  col_cs01_status : string;
  col_company_status : json;
  col_last_updated : string
}.

Definition build_row (c : company) : row :=
  let acc_due := accounts_due c in
  let cs_due := cs_due c in
  {| col_company_name := name c;
     col_company_number := crn c;
     col_accounts_due_date := acc_due;
     col_accounts_deadline := relative_label today acc_due;
     col_accounts_status := status_label today acc_due;
     col_cs01_due_date := cs_due;
     col_cs01_deadline := relative_label today cs_due;
     col_cs01_status := status_label today cs_due;
     col_company_status := status c;
     col_last_updated := last_updated c |}.

Definition build_rows (filtered : list company) : list row :=
  map build_row filtered.

(** The column of the table.  [pd.DataFrame(rows)] stores the CS01 dates
    in a column, and the lambda of the sort key reads the cells of that
    column, not the dictionaries.  A string is read back as it is.
    What is read back for a [None] depends on the type pandas gives the
    column: NaN when it becomes a column of strings (pandas 3, as soon
    as one date is a string) or of numbers, [None] itself when it stays
    a column of objects (pandas 2 with a string in the column).  The
    parameter [none_as_nan] says which; it is the same for all cells of
    one column.  Values other than strings and [None] get no key either
    way. *)
Inductive cell := NaN | Value (x : json).

Variable none_as_nan : bool.

Definition df_cell (x : json) : cell :=
  match x with
  | JNull => if none_as_nan then NaN else Value JNull
  | _ => Value x
  end.

(** The sort key [__cs_days__]: [x not in (None, "N/A", "")] compares
    with [==].  NaN equals none of the three, is truthy and is not a
    string, so that [days_until] answers [None] for it.  A key [None]
    is what pandas stores as a missing value. *)
Definition in_sentinels (x : json) : bool :=
  match x with
  | JNull => true
  | JStr s => String.eqb s "N/A" || String.eqb s ""
  | _ => false
  end.

Definition cs_days (x : cell) : option Z :=
  match x with
  | NaN => None
  | Value v => if negb (in_sentinels v) then days_until today v else Some 99999
  end.

(** [df.sort_values("__cs_days__")] with the defaults [ascending=True],
    [kind="quicksort"], [na_position="last"]: pandas sorts the positions
    of the present keys with numpy's [argsort] and appends the positions
    of the missing ones.  The [argsort] is a parameter; what is known of
    it is that it returns the positions [0 .. n-1] in an order that makes
    the keys ascend, and nothing about equal keys. *)
Variable argsort : list Z -> list nat.

Definition isna (items : list (option Z)) (i : nat) : bool :=
  bool_decide (items !! i = Some None).

(** [idx[mask]] for [b = true], [idx[~mask]] for [b = false]. *)
Definition positions_where (items : list (option Z)) (b : bool) : list nat :=
  filter (fun i => isna items i = b) (seq 0 (length items)).

Definition nargsort (items : list (option Z)) : list nat :=
  let non_nans := omap id items in
  let non_nan_idx := positions_where items false in
  let nan_idx := positions_where items true in
  let indexer := omap (fun j => non_nan_idx !! j) (argsort non_nans) in
  indexer ++ nan_idx.

Definition df_take {A} (df : list A) (indexer : list nat) : list A :=
  omap (fun i => df !! i) indexer.

Definition sort_by_cs_days (df : list row) : list row :=
  match df with
  | [] => df
  | _ =>
      df_take df
        (nargsort ((fun r => cs_days (df_cell (col_cs01_due_date r))) <$> df))
  end.

End Portfolio.

(** Reference [argsort]s: insertion sort on the position vector.  With
    the test [Z.ltb] equal keys stay in their original order; with
    [Z.leb] they end up reversed. *)
Fixpoint insert_pos (before : Z -> Z -> bool) (v : list Z) (i : nat)
    (sorted : list nat) : list nat :=
  match sorted with
  | [] => [i]
  | j :: rest =>
      if before (nth i v 0) (nth j v 0) then i :: j :: rest
      else j :: insert_pos before v i rest
  end.

Definition insertion_argsort_by (before : Z -> Z -> bool) (v : list Z)
  : list nat :=
  fold_left (fun sorted i => insert_pos before v i sorted) (seq 0 (length v)) [].

Definition insertion_argsort : list Z -> list nat := insertion_argsort_by Z.ltb.

Definition insertion_argsort_rev : list Z -> list nat := insertion_argsort_by Z.leb.

(** What is assumed of numpy's [argsort]. *)
Definition argsort_contract (argsort : list Z -> list nat) : Prop :=
  forall v, Permutation (argsort v) (seq 0 (length v))
            /\ Sorted Z.le (omap (fun i => v !! i) (argsort v)).

(** The order of the sort keys: numbers ascend, missing keys are last. *)
Definition cs_key_le (a b : option Z) : Prop :=
  match a, b with
  | Some x, Some y => x <= y
  | _, None => True
  | None, Some _ => False
  end.

Definition row_key (today : date) (none_as_nan : bool) (r : row) : option Z :=
  cs_days today (df_cell none_as_nan (col_cs01_due_date r)).

(** "Rows without a CS offset are at the end": no such row stands before
    a row that has one. *)
Definition unknown_rows_last (today : date) (out : list row) : Prop :=
  forall i j r1 r2,
    out !! i = Some r1 -> out !! j = Some r2 ->
    days_until today (col_cs01_due_date r1) = None ->
    days_until today (col_cs01_due_date r2) <> None ->
    (j < i)%nat.

(** ** Urgency classes of the specification

    The classes and thresholds as the specification words them; the
    theorems below relate them to the labels the code returns. *)

Inductive UrgencyClass := Unknown | OK | DueIn30Days | DueIn7Days | Overdue.

Definition rank (u : UrgencyClass) : nat :=
  match u with
  | Unknown => 0 | OK => 1 | DueIn30Days => 2 | DueIn7Days => 3 | Overdue => 4
  end%nat.

Definition more_urgent (a b : UrgencyClass) : UrgencyClass :=
  if (rank a <? rank b)%nat then b else a.

Definition urgencyOf_spec (offset : option Z) : UrgencyClass :=
  match offset with
  | None => Unknown
  | Some o =>
      if o <? 0 then Overdue
      else if (0 <=? o) && (o <=? 7) then DueIn7Days
      else if (8 <=? o) && (o <=? 30) then DueIn30Days
      else if 30 <? o then OK
      else Unknown
  end.

(** The text [status_label] shows for a class. *)
Definition status_text (u : UrgencyClass) : string :=
  match u with
  | Unknown => "⚪ N/A"
  | Overdue => "🔴 Overdue"
  | DueIn7Days => "🟠 Due in 7 days"
  | DueIn30Days => "🟡 Due in 30 days"
  | OK => "🟢 OK"
  end.

(** The text [company_overall_status] returns for a class. *)
Definition overall_text (u : UrgencyClass) : string :=
  match u with
  | Unknown => "N/A"
  | Overdue => "Overdue"
  | DueIn7Days => "Due in 7 days"
  | DueIn30Days => "Due in 30 days"
  | OK => "OK"
  end.

(** The overall class of a company as the specification words it: the
    more urgent of the classes of its two deadlines. *)
Definition overallUrgency_spec (today : date) (c : company) : UrgencyClass :=
  more_urgent (urgencyOf_spec (days_until today (accounts_due c)))
              (urgencyOf_spec (days_until today (cs_due c))).

(** The smaller of the defined offsets. *)
Definition min_defined (a b : option Z) : option Z :=
  match a, b with
  | Some x, Some y => Some (Z.min x y)
  | Some x, None => Some x
  | None, Some y => Some y
  | None, None => None
  end.

#[global] Instance UrgencyClass_eq_dec : EqDecision UrgencyClass.
Proof. solve_decision. Defined.

(** The day offsets the summary loop visits: both deadlines of every
    company, in order. *)
Definition deadline_offsets (today : date) (companies : list company)
  : list (option Z) :=
  flat_map (fun c => [days_until today (accounts_due c);
                      days_until today (cs_due c)]) companies.

(** How many defined offsets of a list satisfy a test. *)
Fixpoint count_offsets (test : Z -> bool) (l : list (option Z)) : Z :=
  match l with
  | [] => 0
  | Some o :: rest => (if test o then 1 else 0) + count_offsets test rest
  | None :: rest => count_offsets test rest
  end.

Definition increments (acc : counters) : Z := overdue acc + due_7 acc + due_30 acc.

(** The collection [load_companies] returns in a world. *)
Definition stored (w : world) : list company :=
  match file w with Some data => data | None => [] end.

(** The URL [refresh_company_data] requests for a registration number,
    and what the call returns; the latter does not depend on the world
    (lemma [refresh_company_data_run]). *)
Definition company_url (n : string) : string :=
  (BASE_URL ++ "/company/" ++ n)%string.

Definition fetch_outcome (today : date) (http : string -> exn + (Z * option json))
    (n : string) : exn + option company :=
  fst (refresh_company_data today http n {| file := None; requests := [] |}).

Definition fetched (today : date) (http : string -> exn + (Z * option json))
    (n : string) : option company :=
  match fetch_outcome today http n with
  | inr updated => updated
  | inl _ => None
  end.

(** The last character of a string. *)
Fixpoint last_char (s : string) : option ascii :=
  match s with
  | EmptyString => None
  | String c rest =>
      match last_char rest with
      | None => Some c
      | Some l => Some l
      end
  end.

(** Calendar order of dates, and the dates [date_new] accepts. *)
Definition date_lt (d1 d2 : date) : Prop :=
  year d1 < year d2
  \/ (year d1 = year d2
      /\ (month d1 < month d2 \/ (month d1 = month d2 /\ day d1 < day d2))).

Definition valid_date (d : date) : Prop :=
  1 <= year d <= 9999 /\ 1 <= month d <= 12
  /\ 1 <= day d <= _days_in_month (year d) (month d).

(** ** The rest of the "My Companies" page and the Dashboard *)

(** The table the page shows: the rows of the filtered companies, sorted
    by the CS01 key.  (The page builds it only when some company is
    stored; for an empty store it would be empty.) *)
Definition my_companies_table (today : date) (none_as_nan : bool)
    (argsort : list Z -> list nat) (filter_choice : string)
    (companies : list company) : list row :=
  sort_by_cs_days today none_as_nan argsort
    (build_rows today (filtered_companies today filter_choice companies)).

(** The options of the details select box, [f"{c['name']} ({c['crn']})"],
    and the registration number read back from the chosen option,
    [choice.rsplit("(", 1)[-1].strip(")")].  The rendering of the name
    by the f-string is a parameter.  Both parentheses are single bytes
    that occur in no multi-byte character, so that working on bytes
    agrees with Python's strings. *)
Fixpoint occurs (c : ascii) (s : string) : bool :=
  match s with
  | EmptyString => false
  | String a rest => Ascii.eqb a c || occurs c rest
  end.

(** [s.rsplit(sep, 1)[-1]]: what follows the last [sep], or [s] when
    there is none. *)
Fixpoint rsplit_last (sep : ascii) (s : string) : string :=
  match s with
  | EmptyString => EmptyString
  | String a rest =>
      if occurs sep rest then rsplit_last sep rest
      else if Ascii.eqb a sep then rest
      else s
  end.

Fixpoint lstrip (c : ascii) (s : string) : string :=
  match s with
  | EmptyString => EmptyString
  | String a rest => if Ascii.eqb a c then lstrip c rest else s
  end.

Fixpoint rstrip (c : ascii) (s : string) : string :=
  match s with
  | EmptyString => EmptyString
  | String a rest =>
      match rstrip c rest with
      | EmptyString => if Ascii.eqb a c then EmptyString else String a EmptyString
      | r => String a r
      end
  end.

(** [s.strip(c)] for a one-character argument. *)
Definition strip (c : ascii) (s : string) : string := rstrip c (lstrip c s).

Section Details.

(** [str(x)] as the f-string applies it to the stored name. *)
Variable str_of : json -> string.

Definition select_option (c : company) : string :=
  (str_of (name c) ++ " (" ++ crn c ++ ")")%string.

Definition select_options (filtered : list company) : list string :=
  map select_option filtered.

Definition selected_crn (choice : string) : string :=
  strip ")" (rsplit_last "(" choice).

End Details.

(** The dictionary the Dashboard keeps in [st.session_state["last_company"]]. *)
Record last_company := mklast {
  lc_crn : string;
  lc_name : json;
  lc_status : json;
  lc_sic : json;
  lc_address : json;
  lc_date_of_creation : json;
  lc_accounts_due : json;
  lc_cs_due : json;
  lc_last_updated : string
}.

Section Dashboard.

Variable today : date.
Variable http : string -> exn + (Z * option json).

(** The body of [if st.button("Search") and crn_input:]; the result is
    the new value of [st.session_state["last_company"]]. *)
Definition dashboard_search (crn_input : string) : M (option last_company) :=
  (profile <- get_json http ("/company/" ++ crn_input) ;;
   if negb (truthy profile) then ret None
   else
     company_name <- dict_get profile "company_name" JNull ;;
     company_status <- dict_get profile "company_status" JNull ;;
     sic <- dict_get profile "sic_codes" JNull ;;
     accounts <- dict_get profile "accounts" (JObj []) ;;
     cs <- dict_get profile "confirmation_statement" (JObj []) ;;
     accounts_next_due <- dict_get accounts "next_due" (JStr "N/A") ;;
     cs_next_due <- dict_get cs "next_due" (JStr "N/A") ;;
     address <- dict_get profile "registered_office_address" (JObj []) ;;
     date_of_creation <- dict_get profile "date_of_creation" JNull ;;
     ret (Some {| lc_crn := crn_input;
                  lc_name := company_name;
                  lc_status := company_status;
                  lc_sic := sic;
                  lc_address := address;
                  lc_date_of_creation := date_of_creation;
                  lc_accounts_due := accounts_next_due;
                  lc_cs_due := cs_next_due;
                  lc_last_updated := strftime today |}))%py.

(** One run of the Dashboard's search: nothing happens unless the button
    was clicked and the input is not empty. *)
Definition dashboard_page (search_clicked : bool) (crn_input : string)
    (session : option last_company) : M (option last_company) :=
  if search_clicked && negb (String.eqb crn_input "")
  then dashboard_search crn_input
  else ret session.

(** The dictionary the "Save" button passes to [add_company]. *)
Definition save_data (last : last_company) : company :=
  {| crn := lc_crn last;
     name := lc_name last;
     status := lc_status last;
     accounts_due := lc_accounts_due last;
     cs_due := lc_cs_due last;
     last_updated := lc_last_updated last |}.

Definition dashboard_save (last : last_company) : M bool :=
  add_company (save_data last).

End Dashboard.

(** Do the four characters [strftime] writes for a year read back as it? *)
Definition year_digits_ok (y : Z) : bool :=
  match list_ascii_of_string (zfill 4 (str y)) with
  | [a; b; c; d] =>
      is_digit a && is_digit b && is_digit c && is_digit d
      && (1000 * int_of_digit a + 100 * int_of_digit b
          + 10 * int_of_digit c + int_of_digit d =? y)
  | _ => false
  end.

(** A fixed clock for the worked examples: 2 March 2024. *)
Definition today0 : date := mkdate 2024 3 2.

(** Worked examples: a portfolio of three companies whose deadlines lie
    (-5, 10), (3, 3) and (none, 40) days from [today0]. *)
Definition example_company (n : string) (acc cs : json) : company :=
  {| crn := n; name := JStr "Example Ltd"; status := JStr "active";
     accounts_due := acc; cs_due := cs; last_updated := "2024-03-02" |}.

Definition ex1 : company :=
  example_company "00000001" (JStr "2024-02-26") (JStr "2024-03-12").
Definition ex2 : company :=
  example_company "00000002" (JStr "2024-03-05") (JStr "2024-03-05").
Definition ex3 : company :=
  example_company "00000003" (JStr "N/A") (JStr "2024-04-11").

Definition world0 : world := {| file := Some [ex1; ex2]; requests := [] |}.

(** A registry that knows the first example company, answers 404 for the
    second, fails to connect for "00000009" and answers every other
    request with an empty JSON object. *)
Definition http0 (url : string) : exn + (Z * option json) :=
  if String.eqb url (company_url "00000001") then
    inr (200, Some (JObj [("company_name", JStr "Example Ltd");
                          ("company_status", JStr "active");
                          ("accounts", JObj [("next_due", JStr "2025-01-31")]);
                          ("confirmation_statement", JObj [])]))
  else if String.eqb url (company_url "00000002") then inr (404, None)
  else if String.eqb url (company_url "00000009") then inl ConnectionError
  else inr (200, Some (JObj [])).

(** Two table rows: one without a CS01 date, one with a CS01 date far in
    the future. *)
Definition row_na : row :=
  build_row today0 (example_company "00000004" (JStr "N/A") (JStr "N/A")).
Definition row_far : row :=
  build_row today0 (example_company "00000005" (JStr "N/A") (JStr "9999-12-31")).

(** A row whose CS01 date is [None] and a row whose CS01 date is text
    that is no date. *)
Definition row_null : row :=
  build_row today0 (example_company "00000010" (JStr "N/A") JNull).
Definition row_bad : row :=
  build_row today0 (example_company "00000008" (JStr "N/A") (JStr "not a date")).

(** Two rows with the same CS01 date. *)
Definition row_a : row := build_row today0 ex2.
Definition row_b : row :=
  build_row today0 (example_company "00000006" (JStr "N/A") (JStr "2024-03-05")).

(** * Theorems *)

(** ** Day offsets and status labels *)

Lemma days_until_None_iff (today : date) (x : json) :
  days_until today x = None <->
  match x with
  | JStr s => s = ""%string \/ s = "N/A"%string \/ strptime s = None
  | _ => True
  end.
Proof.
  unfold days_until.
  destruct x as [| b | n | s | l | l]; simpl;
    try (split; [tauto | intros _];
         repeat match goal with
                | |- context [if ?b then _ else _] => destruct b
                end; reflexivity).
  destruct (String.eqb_spec s "") as [-> | Hne]; simpl; [tauto |].
  destruct (String.eqb_spec s "N/A") as [-> | Hna]; simpl; [tauto |].
  destruct (strptime s); split; intros H; try tauto; try discriminate.
  destruct H as [H | [H | H]]; congruence.
Qed.

Lemma status_label_class (today : date) (x : json) :
  status_label today x = status_text (urgencyOf_spec (days_until today x)).
Proof.
  unfold status_label, urgencyOf_spec.
  destruct (days_until today x) as [o |]; [| reflexivity].
  destruct (Z.ltb_spec o 0); [reflexivity |].
  destruct (Z.leb_spec 0 o); [| lia]. simpl.
  destruct (Z.leb_spec o 7); [reflexivity |].
  destruct (Z.leb_spec 8 o); [| lia]. simpl.
  destruct (Z.leb_spec o 30); [reflexivity |].
  destruct (Z.ltb_spec 30 o); [reflexivity | lia].
Qed.

Lemma status_text_inj (u v : UrgencyClass) :
  status_text u = status_text v -> u = v.
Proof. destruct u, v; simpl; intros H; try reflexivity; discriminate H. Qed.

Lemma overall_text_inj (u v : UrgencyClass) :
  overall_text u = overall_text v -> u = v.
Proof. destruct u, v; simpl; intros H; try reflexivity; discriminate H. Qed.

Lemma urgencyOf_spec_ranges (o : Z) :
  (urgencyOf_spec (Some o) = Overdue <-> o < 0)
  /\ (urgencyOf_spec (Some o) = DueIn7Days <-> 0 <= o <= 7)
  /\ (urgencyOf_spec (Some o) = DueIn30Days <-> 8 <= o <= 30)
  /\ (urgencyOf_spec (Some o) = OK <-> 30 < o)
  /\ urgencyOf_spec (Some o) <> Unknown.
Proof.
  unfold urgencyOf_spec.
  destruct (Z.ltb_spec o 0); [repeat split; intros; try lia; try discriminate; auto |].
  destruct (Z.leb_spec 0 o); [| lia]. simpl.
  destruct (Z.leb_spec o 7); [repeat split; intros; try lia; try discriminate; auto |].
  destruct (Z.leb_spec 8 o); [| lia]. simpl.
  destruct (Z.leb_spec o 30); [repeat split; intros; try lia; try discriminate; auto |].
  destruct (Z.ltb_spec 30 o); [| lia].
  repeat split; intros; try lia; try discriminate; auto.
Qed.

(** C1: [status_label] shows the N/A label exactly when [days_until]
    gives no offset, which is the case for a value that is not a string,
    for the empty string, for "N/A" and for a string the parser rejects;
    otherwise it shows Overdue for an offset below 0, Due in 7 days for
    0..7, Due in 30 days for 8..30 and OK above 30. *)
Theorem status_label_by_offset (today : date) (date_str : json) :
  status_label today date_str
    = status_text (urgencyOf_spec (days_until today date_str))
  /\ (days_until today date_str = None <->
      match date_str with
      | JStr s => s = ""%string \/ s = "N/A"%string \/ strptime s = None
      | _ => True
      end)
  /\ (status_label today date_str = "⚪ N/A"%string
      <-> days_until today date_str = None)
  /\ (status_label today date_str = "🔴 Overdue"%string
      <-> exists o, days_until today date_str = Some o /\ o < 0)
  /\ (status_label today date_str = "🟠 Due in 7 days"%string
      <-> exists o, days_until today date_str = Some o /\ 0 <= o <= 7)
  /\ (status_label today date_str = "🟡 Due in 30 days"%string
      <-> exists o, days_until today date_str = Some o /\ 8 <= o <= 30)
  /\ (status_label today date_str = "🟢 OK"%string
      <-> exists o, days_until today date_str = Some o /\ 30 < o).
Proof.
  split; [apply status_label_class |].
  split; [apply days_until_None_iff |].
  rewrite status_label_class.
  destruct (days_until today date_str) as [o |].
  - pose proof (urgencyOf_spec_ranges o) as (Hov & H7 & H30 & Hok & Hun).
    change "⚪ N/A"%string with (status_text Unknown).
    change "🔴 Overdue"%string with (status_text Overdue).
    change "🟠 Due in 7 days"%string with (status_text DueIn7Days).
    change "🟡 Due in 30 days"%string with (status_text DueIn30Days).
    change "🟢 OK"%string with (status_text OK).
    repeat split;
      try (intros H%status_text_inj);
      try (intros (o' & [= <-] & H));
      try congruence;
      try (exists o; split; [reflexivity | tauto]);
      try (f_equal; tauto).
  - simpl. repeat split; intros H; try discriminate H; try reflexivity;
      destruct H as (o & H & _); discriminate H.
Qed.

(** The classes switch exactly between the offsets -1 and 0, 7 and 8,
    30 and 31: six dates around 2 March 2024. *)
Example status_label_boundaries :
  map (fun s => (days_until today0 (JStr s), status_label today0 (JStr s)))
      ["2024-03-01"; "2024-03-02"; "2024-03-09"; "2024-03-10"; "2024-04-01";
       "2024-04-02"]%string
  = [(Some (-1), "🔴 Overdue"); (Some 0, "🟠 Due in 7 days");
     (Some 7, "🟠 Due in 7 days"); (Some 8, "🟡 Due in 30 days");
     (Some 30, "🟡 Due in 30 days"); (Some 31, "🟢 OK")]%string.
Proof. vm_compute. reflexivity. Qed.

(** ** Overall status *)

Lemma company_overall_status_min (today : date) (c : company) :
  company_overall_status today c
  = overall_text (urgencyOf_spec
      (min_defined (days_until today (accounts_due c))
                   (days_until today (cs_due c)))).
Proof.
  assert (Hlabel : forall o : Z,
    (if o <? 0 then "Overdue"%string
     else if o <=? 7 then "Due in 7 days"%string
     else if o <=? 30 then "Due in 30 days"%string else "OK"%string)
    = overall_text (urgencyOf_spec (Some o))).
  { intros o. unfold urgencyOf_spec.
    destruct (Z.ltb_spec o 0); [reflexivity |].
    destruct (Z.leb_spec 0 o); [| lia]. simpl.
    destruct (Z.leb_spec o 7); [reflexivity |].
    destruct (Z.leb_spec 8 o); [| lia]. simpl.
    destruct (Z.leb_spec o 30); [reflexivity |].
    destruct (Z.ltb_spec 30 o); [reflexivity | lia]. }
  unfold company_overall_status, days_remaining.
  destruct (days_until today (accounts_due c)) as [x |],
           (days_until today (cs_due c)) as [y |]; simpl;
    try reflexivity; unfold py_min; simpl; apply Hlabel.
Qed.

Lemma urgencyOf_spec_antitone (x y : Z) :
  x <= y -> (rank (urgencyOf_spec (Some y)) <= rank (urgencyOf_spec (Some x)))%nat.
Proof.
  intros Hxy.
  pose proof (urgencyOf_spec_ranges x) as (Hx1 & Hx2 & Hx3 & Hx4 & Hx5).
  pose proof (urgencyOf_spec_ranges y) as (Hy1 & Hy2 & Hy3 & Hy4 & Hy5).
  destruct (urgencyOf_spec (Some x)), (urgencyOf_spec (Some y));
    simpl; try lia; try congruence;
    repeat match goal with
           | H : ?u = ?u <-> _ |- _ => apply proj1 in H; specialize (H eq_refl)
           end; lia.
Qed.

Lemma more_urgent_rank (u v : UrgencyClass) :
  (rank v <= rank u)%nat -> more_urgent u v = u.
Proof.
  unfold more_urgent. intros H.
  destruct (Nat.ltb_spec (rank u) (rank v)); [lia | reflexivity].
Qed.

Lemma more_urgent_comm (u v : UrgencyClass) : more_urgent u v = more_urgent v u.
Proof. destruct u, v; reflexivity. Qed.

Lemma more_urgent_min (a b : option Z) :
  more_urgent (urgencyOf_spec a) (urgencyOf_spec b)
  = urgencyOf_spec (min_defined a b).
Proof.
  destruct a as [x |], b as [y |]; cbn [min_defined].
  - destruct (Z.le_ge_cases x y) as [Hxy | Hyx].
    + rewrite Z.min_l by lia.
      apply more_urgent_rank, urgencyOf_spec_antitone, Hxy.
    + rewrite Z.min_r by lia. rewrite more_urgent_comm.
      apply more_urgent_rank, urgencyOf_spec_antitone. lia.
  - apply more_urgent_rank. cbn [urgencyOf_spec rank]. lia.
  - rewrite more_urgent_comm. apply more_urgent_rank.
    cbn [urgencyOf_spec rank]. lia.
  - reflexivity.
Qed.

Lemma company_overall_status_class (today : date) (c : company) :
  company_overall_status today c = overall_text (overallUrgency_spec today c).
Proof.
  unfold overallUrgency_spec.
  rewrite more_urgent_min. apply company_overall_status_min.
Qed.

(** C2: [company_overall_status] returns "N/A" exactly when neither
    deadline has a day offset; otherwise it returns the label of the
    class the thresholds give to the smaller of the defined offsets,
    which is the more urgent of the classes [status_label] shows for the
    two deadlines. *)
Theorem company_overall_status_spec (today : date) (c : company) :
  (company_overall_status today c = "N/A"%string
   <-> days_until today (accounts_due c) = None
       /\ days_until today (cs_due c) = None)
  /\ company_overall_status today c
     = overall_text (urgencyOf_spec
         (min_defined (days_until today (accounts_due c))
                      (days_until today (cs_due c))))
  /\ exists ua uc,
       status_label today (accounts_due c) = status_text ua
       /\ status_label today (cs_due c) = status_text uc
       /\ company_overall_status today c = overall_text (more_urgent ua uc).
Proof.
  split; [| split].
  - rewrite company_overall_status_min.
    change "N/A"%string with (overall_text Unknown).
    split.
    + intros H%overall_text_inj.
      destruct (days_until today (accounts_due c)) as [x |],
               (days_until today (cs_due c)) as [y |];
        cbn [min_defined] in H; try (split; reflexivity);
        match type of H with
        | urgencyOf_spec (Some ?o) = _ =>
            destruct (urgencyOf_spec_ranges o) as (_ & _ & _ & _ & Hn);
            contradiction
        end.
    + intros [-> ->]. reflexivity.
  - apply company_overall_status_min.
  - exists (urgencyOf_spec (days_until today (accounts_due c))),
           (urgencyOf_spec (days_until today (cs_due c))).
    split; [apply status_label_class |].
    split; [apply status_label_class |].
    apply company_overall_status_class.
Qed.

(** ** Relative labels *)

(** C5, as the code behaves: on 2 March 2024 the date 2024-01-01 lies 61
    days in the past, and [relative_label] returns "2 months ago". *)
Theorem relative_label_2024_01_01 :
  days_until today0 (JStr "2024-01-01") = Some (-61)
  /\ relative_label today0 (JStr "2024-01-01") = "2 months ago"%string.
Proof. split; vm_compute; reflexivity. Qed.

(** C5, as stated, fails: the label is not "in 2 months". *)
Lemma relative_label_2024_01_01_not_future :
  relative_label today0 (JStr "2024-01-01") <> "in 2 months"%string.
Proof. vm_compute. intros H. discriminate H. Qed.

(** The future branch, for comparison: 60 days ahead reads "in 2 months". *)
Example relative_label_60_days_ahead :
  days_until today0 (JStr "2024-05-01") = Some 60
  /\ relative_label today0 (JStr "2024-05-01") = "in 2 months"%string.
Proof. split; vm_compute; reflexivity. Qed.

(** ** Summary counters *)

Lemma tally_fold (l : list (option Z)) (acc : counters) :
  fold_left tally l acc
  = {| due_30 := due_30 acc + count_offsets (fun o => (8 <=? o) && (o <=? 30)) l;
       due_7 := due_7 acc + count_offsets (fun o => (0 <=? o) && (o <=? 7)) l;
       overdue := overdue acc + count_offsets (fun o => o <? 0) l |}.
Proof.
  revert acc. induction l as [| [o |] l IH]; intros acc; cbn [fold_left count_offsets].
  - destruct acc; simpl. f_equal; lia.
  - rewrite IH. unfold tally.
    destruct (Z.ltb_spec o 0), (Z.leb_spec o 7), (Z.leb_spec o 30),
             (Z.leb_spec 0 o), (Z.leb_spec 8 o); try lia;
      cbn [due_30 due_7 overdue andb]; f_equal; lia.
  - apply IH.
Qed.

Lemma tally_company_fold (today : date) (companies : list company)
    (acc : counters) :
  fold_left (tally_company today) companies acc
  = fold_left tally (deadline_offsets today companies) acc.
Proof.
  revert acc. induction companies as [| c cs IH]; intros acc; [reflexivity |].
  cbn [fold_left deadline_offsets flat_map]. rewrite fold_left_app, IH.
  reflexivity.
Qed.

Lemma count_offsets_partition (l : list (option Z)) :
  count_offsets (fun o => o <? 0) l
  + count_offsets (fun o => (0 <=? o) && (o <=? 7)) l
  + count_offsets (fun o => (8 <=? o) && (o <=? 30)) l
  + count_offsets (fun o => 30 <? o) l
  = count_offsets (fun _ => true) l
  /\ 0 <= count_offsets (fun o => 30 <? o) l
  /\ count_offsets (fun _ => true) l <= Z.of_nat (length l).
Proof.
  induction l as [| [o |] l (IH1 & IH2 & IH3)]; cbn [count_offsets length].
  - lia.
  - destruct (Z.ltb_spec o 0), (Z.leb_spec o 7), (Z.leb_spec o 30),
             (Z.leb_spec 0 o), (Z.leb_spec 8 o), (Z.ltb_spec 30 o);
      try lia; cbn [andb]; lia.
  - lia.
Qed.

Lemma deadline_offsets_length (today : date) (companies : list company) :
  length (deadline_offsets today companies) = (2 * length companies)%nat.
Proof.
  induction companies as [| c cs IH]; [reflexivity |].
  cbn [deadline_offsets flat_map length app] in *. unfold deadline_offsets in IH.
  rewrite IH. lia.
Qed.

(** C3: the summary counts every record in [total]; over the offsets of
    both deadlines of every record, an undefined offset is counted
    nowhere and a defined one in exactly one place: [overdue] below 0,
    [due_7] for 0..7, [due_30] for 8..30, no counter above 30; one
    company adds at most two increments. *)
Theorem summary_stats_spec (today : date) (companies : list company) :
  let s := summary_stats today companies in
  let ds := deadline_offsets today companies in
  total s = Z.of_nat (length companies)
  /\ overdue (buckets s) = count_offsets (fun o => o <? 0) ds
  /\ due_7 (buckets s) = count_offsets (fun o => (0 <=? o) && (o <=? 7)) ds
  /\ due_30 (buckets s) = count_offsets (fun o => (8 <=? o) && (o <=? 30)) ds
  /\ increments (buckets s) + count_offsets (fun o => 30 <? o) ds
     = count_offsets (fun _ => true) ds
  /\ increments (buckets s) <= 2 * total s
  /\ forall acc c,
       increments acc <= increments (tally_company today acc c)
                      <= increments acc + 2.
Proof.
  cbn zeta. unfold summary_stats. cbn [total buckets].
  rewrite tally_company_fold, tally_fold. cbn [due_30 due_7 overdue].
  pose proof (count_offsets_partition (deadline_offsets today companies))
    as (Hsum & Hok & Hlen).
  rewrite deadline_offsets_length in Hlen.
  unfold increments. cbn [due_30 due_7 overdue].
  repeat (split; [lia |]).
  intros acc c. unfold tally_company. rewrite tally_fold.
  cbn [due_30 due_7 overdue].
  set (ds := [days_remaining today (accounts_due c);
              days_remaining today (cs_due c)]).
  pose proof (count_offsets_partition ds) as (H1 & H2 & H3).
  change (length ds) with 2%nat in H3.
  assert (0 <= count_offsets (fun o => o <? 0) ds
          /\ 0 <= count_offsets (fun o => (0 <=? o) && (o <=? 7)) ds
          /\ 0 <= count_offsets (fun o => (8 <=? o) && (o <=? 30)) ds)
    as (Hp1 & Hp2 & Hp3).
  { subst ds. cbn [count_offsets].
    destruct (days_remaining today (accounts_due c)) as [x |],
             (days_remaining today (cs_due c)) as [y |];
      repeat match goal with
             | |- context [if ?b then _ else _] => destruct b
             end; lia. }
  lia.
Qed.

(** C4, as the code behaves: three companies with offsets (-5, 10),
    (3, 3) and (none, 40) give total 3, overdue 1, due-in-7 2 and
    due-in-30 1. *)
Theorem summary_stats_three_companies (today : date) (c1 c2 c3 : company) :
  days_until today (accounts_due c1) = Some (-5) ->
  days_until today (cs_due c1) = Some 10 ->
  days_until today (accounts_due c2) = Some 3 ->
  days_until today (cs_due c2) = Some 3 ->
  days_until today (accounts_due c3) = None ->
  days_until today (cs_due c3) = Some 40 ->
  summary_stats today [c1; c2; c3]
  = {| total := 3; buckets := {| due_30 := 1; due_7 := 2; overdue := 1 |} |}.
Proof.
  intros H1a H1c H2a H2c H3a H3c.
  unfold summary_stats, tally_company, days_remaining. cbn [fold_left length].
  rewrite H1a, H1c, H2a, H2c, H3a, H3c. reflexivity.
Qed.

Lemma summary_stats_three_companies_witness :
  summary_stats today0 [ex1; ex2; ex3]
  = {| total := 3; buckets := {| due_30 := 1; due_7 := 2; overdue := 1 |} |}.
Proof.
  apply (summary_stats_three_companies today0 ex1 ex2 ex3);
    vm_compute; reflexivity.
Defined.

(** C4, as stated, fails: on such a portfolio the due-in-7 counter is
    2, not 3. *)
Lemma summary_stats_three_companies_due_7_not_3 :
  days_until today0 (accounts_due ex1) = Some (-5)
  /\ days_until today0 (cs_due ex1) = Some 10
  /\ days_until today0 (accounts_due ex2) = Some 3
  /\ days_until today0 (cs_due ex2) = Some 3
  /\ days_until today0 (accounts_due ex3) = None
  /\ days_until today0 (cs_due ex3) = Some 40
  /\ due_7 (buckets (summary_stats today0 [ex1; ex2; ex3])) <> 3.
Proof. repeat split; vm_compute; congruence. Qed.

(** ** The store: [add_company] *)

Lemma crn_saved_iff (companies : list company) (n : string) :
  crn_saved companies n = true <-> exists c, c ∈ companies /\ crn c = n.
Proof.
  induction companies as [| c cs IH]; cbn [crn_saved].
  - split; [discriminate |]. intros (c & Hc & _). inversion Hc.
  - destruct (String.eqb_spec (crn c) n) as [Heq | Hne].
    + split; [| reflexivity]. intros _. exists c. split; [apply list_elem_of_here | exact Heq].
    + rewrite IH. split.
      * intros (c' & Hc' & Heq). exists c'.
        split; [apply list_elem_of_further, Hc' | exact Heq].
      * intros (c' & Hc' & Heq).
        apply elem_of_cons in Hc' as [-> | Hc']; [contradiction |].
        exists c'. split; assumption.
Qed.

Lemma crn_saved_app (l1 l2 : list company) (n : string) :
  crn_saved (l1 ++ l2) n = crn_saved l1 n || crn_saved l2 n.
Proof.
  induction l1 as [| c cs IH]; [reflexivity |]. cbn [app crn_saved].
  destruct (String.eqb (crn c) n); [reflexivity | exact IH].
Qed.

Lemma filter_crn_absent (companies : list company) (n : string) :
  crn_saved companies n = false ->
  filter (fun c => crn c = n) companies = [].
Proof.
  induction companies as [| c cs IH]; [reflexivity |]. cbn [crn_saved].
  destruct (String.eqb_spec (crn c) n) as [Heq | Hne]; [discriminate |].
  intros H. rewrite filter_cons_False by exact Hne. apply IH, H.
Qed.

Lemma filter_crn_unique (companies : list company) (n : string) :
  NoDup (crn <$> companies) ->
  crn_saved companies n = true ->
  length (filter (fun c => crn c = n) companies) = 1%nat.
Proof.
  induction companies as [| c cs IH]; cbn [crn_saved]; [discriminate |].
  rewrite fmap_cons. intros Hnd Hsaved. apply NoDup_cons in Hnd as [Hnotin Hnd].
  destruct (String.eqb_spec (crn c) n) as [Heq | Hne].
  - rewrite filter_cons_True by exact Heq. cbn [length]. f_equal.
    rewrite filter_crn_absent; [reflexivity |].
    destruct (crn_saved cs n) eqn:E; [| reflexivity].
    apply crn_saved_iff in E as (c' & Hc' & Hc'n).
    exfalso. apply Hnotin. rewrite Heq, <- Hc'n.
    apply list_elem_of_fmap_2, Hc'.
  - rewrite filter_cons_False by exact Hne. apply IH; assumption.
Qed.

Lemma add_company_run (r : company) (w : world) :
  add_company r w
  = if crn_saved (stored w) (crn r) then (inr false, w)
    else (inr true, {| file := Some (stored w ++ [r]); requests := requests w |}).
Proof.
  unfold add_company, bind, load_companies, save_companies, ret, stored.
  destruct (crn_saved _ _); reflexivity.
Qed.

(** C7: when a stored record has the registration number of [r],
    [add_company] returns [False] and leaves the world as it is;
    otherwise it saves the stored collection with [r] appended and
    returns [True].  On a store with one record per registration number,
    a second [add_company] with the same number returns [False], changes
    nothing, and the store holds exactly one record with that number. *)
Theorem add_company_dedup (w : world) (r : company) :
  ((exists c, c ∈ stored w /\ crn c = crn r) ->
   add_company r w = (inr false, w))
  /\ ((forall c, c ∈ stored w -> crn c <> crn r) ->
      add_company r w
      = (inr true, {| file := Some (stored w ++ [r]); requests := requests w |}))
  /\ (forall r', crn r' = crn r -> NoDup (crn <$> stored w) ->
      let w1 := snd (add_company r w) in
      add_company r' w1 = (inr false, w1)
      /\ length (filter (fun c => crn c = crn r) (stored w1)) = 1%nat).
Proof.
  split; [| split].
  - intros H%crn_saved_iff. rewrite add_company_run, H. reflexivity.
  - intros H. rewrite add_company_run.
    destruct (crn_saved (stored w) (crn r)) eqn:E; [| reflexivity].
    apply crn_saved_iff in E as (c & Hc & Heq). destruct (H c Hc Heq).
  - intros r' Hcrn Hnd. cbn zeta. rewrite !add_company_run.
    destruct (crn_saved (stored w) (crn r)) eqn:E; cbn [snd].
    + rewrite Hcrn, E. split; [reflexivity |].
      apply filter_crn_unique; assumption.
    + unfold stored at 1 3. cbn [file].
      rewrite Hcrn, crn_saved_app. cbn [crn_saved].
      rewrite String.eqb_refl, orb_true_r. split; [reflexivity |].
      unfold stored at 1. cbn [file].
      rewrite filter_app, filter_crn_absent by exact E.
      rewrite filter_cons_True by reflexivity. reflexivity.
Qed.

Lemma add_company_dedup_witness :
  add_company ex1 world0 = (inr false, world0)
  /\ add_company ex3 world0
     = (inr true, {| file := Some [ex1; ex2; ex3]; requests := [] |})
  /\ length (filter (fun c => crn c = crn ex3)
               (stored (snd (add_company ex3 world0)))) = 1%nat.
Proof.
  split; [| split].
  - apply (proj1 (add_company_dedup world0 ex1)).
    exists ex1. split; [apply list_elem_of_here | reflexivity].
  - apply (proj1 (proj2 (add_company_dedup world0 ex3))).
    intros c Hc. change (stored world0) with [ex1; ex2] in Hc.
    apply elem_of_cons in Hc as [-> | Hc]; [discriminate |].
    apply list_elem_of_singleton in Hc as ->. discriminate.
  - apply (proj2 (proj2 (add_company_dedup world0 ex3)) ex3 eq_refl).
    apply (bool_decide_unpack _). vm_compute. exact I.
Defined.

(** ** The filter control *)

Lemma overall_text_not_All (u : UrgencyClass) :
  String.eqb (overall_text u) "All" = false.
Proof. destruct u; reflexivity. Qed.

Lemma filter_options_classes (choice : string) :
  choice ∈ filter_options ->
  choice = "All"%string \/ exists u, u <> Unknown /\ choice = overall_text u.
Proof.
  unfold filter_options. rewrite !elem_of_cons, elem_of_nil.
  intros [-> | [-> | [-> | [-> | [-> | []]]]]]; [left; reflexivity | right ..].
  - exists Overdue. split; [discriminate | reflexivity].
  - exists DueIn7Days. split; [discriminate | reflexivity].
  - exists DueIn30Days. split; [discriminate | reflexivity].
  - exists OK. split; [discriminate | reflexivity].
Qed.

Lemma filtered_companies_class (today : date) (u : UrgencyClass)
    (companies : list company) :
  filtered_companies today (overall_text u) companies
  = filter (fun c => overallUrgency_spec today c = u) companies.
Proof.
  unfold filtered_companies. rewrite overall_text_not_All.
  apply list_filter_iff. intros c. rewrite company_overall_status_class.
  split; [apply overall_text_inj | intros ->; reflexivity].
Qed.

(** C8: the choice "All" returns the collection as it is; every other
    option of the control is the label of one of the classes Overdue,
    DueIn7Days, DueIn30Days, OK and returns, in order, exactly the
    records whose overall class is that one; a record whose overall
    class is Unknown is returned by no option other than "All". *)
Theorem filtered_companies_spec (today : date) (companies : list company) :
  filtered_companies today "All" companies = companies
  /\ (forall choice, choice ∈ filter_options ->
      choice = "All"%string
      \/ exists u, u <> Unknown /\ choice = overall_text u
         /\ filtered_companies today choice companies
            = filter (fun c => overallUrgency_spec today c = u) companies)
  /\ (forall choice c, choice ∈ filter_options -> choice <> "All"%string ->
      c ∈ filtered_companies today choice companies ->
      overallUrgency_spec today c <> Unknown
      /\ company_overall_status today c <> "N/A"%string).
Proof.
  split; [reflexivity |]. split.
  - intros choice [-> | (u & Hu & ->)]%filter_options_classes;
      [left; reflexivity | right].
    exists u. split; [exact Hu |]. split; [reflexivity |].
    apply filtered_companies_class.
  - intros choice c [-> | (u & Hu & ->)]%filter_options_classes Hne Hin;
      [destruct Hne; reflexivity |].
    rewrite filtered_companies_class in Hin.
    apply list_elem_of_filter in Hin as [Hc _].
    split; [congruence |].
    rewrite company_overall_status_class.
    change "N/A"%string with (overall_text Unknown).
    intros H%overall_text_inj. congruence.
Qed.

Lemma filtered_companies_spec_witness :
  (exists u, u <> Unknown /\ "Overdue"%string = overall_text u
     /\ filtered_companies today0 "Overdue" [ex1; ex2; ex3]
        = filter (fun c => overallUrgency_spec today0 c = u) [ex1; ex2; ex3])
  /\ overallUrgency_spec today0 ex1 <> Unknown.
Proof.
  pose proof (filtered_companies_spec today0 [ex1; ex2; ex3]) as (_ & H2 & H3).
  assert (Hopt : "Overdue"%string ∈ filter_options)
    by (apply list_elem_of_further, list_elem_of_here).
  split.
  - destruct (H2 "Overdue"%string Hopt) as [H | H]; [discriminate H | exact H].
  - refine (proj1 (H3 "Overdue"%string ex1 Hopt _ _)); [discriminate |].
    vm_compute. apply list_elem_of_here.
Defined.

(** ** Refreshing the store *)

Lemma refresh_company_data_run (today : date)
    (http : string -> exn + (Z * option json)) (n : string) (w : world) :
  refresh_company_data today http n w
  = (fetch_outcome today http n,
     {| file := file w; requests := requests w ++ [company_url n] |}).
Proof.
  unfold fetch_outcome, refresh_company_data, get_json, bind, company_url.
  cbn [file requests].
  destruct (http _) as [e | [status_code body]]; [reflexivity |].
  destruct (status_code =? 200); [| reflexivity].
  destruct body as [profile |]; [| reflexivity].
  destruct (truthy profile); [| reflexivity]. cbn [negb].
  destruct profile as [| b | k | s | l | members]; try reflexivity.
  cbn [dict_get ret].
  destruct (match assoc members "accounts" with Some v => v | None => JObj [] end);
    try reflexivity.
  destruct (match assoc members "confirmation_statement" with
            | Some v => v | None => JObj [] end);
    reflexivity.
Qed.

Lemma fetch_outcome_crn (today : date)
    (http : string -> exn + (Z * option json)) (n : string) (r : company) :
  fetch_outcome today http n = inr (Some r) -> crn r = n.
Proof.
  unfold fetch_outcome, refresh_company_data, get_json, bind.
  cbn [file requests].
  destruct (http _) as [e | [status_code body]]; [discriminate |].
  destruct (status_code =? 200); [| discriminate].
  destruct body as [profile |]; [| discriminate].
  destruct (truthy profile); [| discriminate]. cbn [negb].
  destruct profile as [| b | k | s | l | members]; try discriminate.
  cbn [dict_get ret].
  destruct (match assoc members "accounts" with Some v => v | None => JObj [] end);
    try discriminate.
  destruct (match assoc members "confirmation_statement" with
            | Some v => v | None => JObj [] end);
    try discriminate.
  cbn [dict_get ret fst]. intros [= <-]. reflexivity.
Qed.

Lemma refresh_loop_ok (today : date) (http : string -> exn + (Z * option json))
    (companies updated_list : list company) (w : world) :
  (forall c, c ∈ companies -> exists res, fetch_outcome today http (crn c) = inr res) ->
  refresh_loop today http companies updated_list w
  = (inr (updated_list ++ omap (fun c => fetched today http (crn c)) companies),
     {| file := file w;
        requests := requests w ++ ((fun c => company_url (crn c)) <$> companies) |}).
Proof.
  revert updated_list w.
  induction companies as [| c cs IH]; intros updated_list w Hok.
  - cbn. rewrite !app_nil_r. destruct w; reflexivity.
  - cbn [refresh_loop]. unfold bind at 1. rewrite refresh_company_data_run.
    destruct (Hok c (list_elem_of_here _ _)) as [res Hres].
    rewrite Hres, IH by (intros c' Hc'; apply Hok, list_elem_of_further, Hc').
    cbn [file requests]. rewrite fmap_cons, <- app_assoc. cbn [app].
    f_equal. f_equal. cbn [omap list_omap]. unfold fetched at 2. rewrite Hres.
    destruct res as [u |]; [rewrite <- app_assoc |]; reflexivity.
Qed.

Lemma refresh_loop_any (today : date) (http : string -> exn + (Z * option json))
    (companies updated_list : list company) (w : world) :
  file (snd (refresh_loop today http companies updated_list w)) = file w
  /\ forall l, fst (refresh_loop today http companies updated_list w) = inr l ->
       exists kept, kept `sublist_of` companies
                    /\ crn <$> l = crn <$> (updated_list ++ kept).
Proof.
  revert updated_list w.
  induction companies as [| c cs IH]; intros updated_list w.
  - cbn. split; [reflexivity |]. intros l [= <-]. exists [].
    split; [constructor | rewrite app_nil_r; reflexivity].
  - cbn [refresh_loop]. unfold bind at 1 2. rewrite refresh_company_data_run.
    destruct (fetch_outcome today http (crn c)) as [e | res] eqn:Hres.
    + cbn. split; [reflexivity | discriminate].
    + match goal with
      | |- context [refresh_loop today http cs ?acc ?w'] =>
          destruct (IH acc w') as [Hfile Hres']
      end.
      split; [exact Hfile |].
      intros l Hl. destruct (Hres' l Hl) as (kept & Hsub & Hcrn).
      destruct res as [u |].
      * exists (c :: kept). split; [constructor; exact Hsub |].
        rewrite Hcrn, <- app_assoc, !fmap_app. cbn.
        rewrite (fetch_outcome_crn _ _ _ _ Hres). reflexivity.
      * exists kept. split; [constructor; exact Hsub | exact Hcrn].
Qed.

(** C6: when every fetch for a stored registration number returns (a
    record or nothing), [refresh_all_companies] sends one request per
    stored record, in order, saves exactly the records the fetches
    returned, in the order of the stored collection, in place of the old
    collection, and returns their number; the result of a fetch depends
    only on the registration number. *)
Theorem refresh_all_companies_spec (today : date)
    (http : string -> exn + (Z * option json)) (w : world) :
  (forall c, c ∈ stored w ->
     exists res, fetch_outcome today http (crn c) = inr res) ->
  (forall n w1,
     fst (refresh_company_data today http n w1) = fetch_outcome today http n)
  /\ refresh_all_companies today http w
     = (inr (Z.of_nat (length (omap (fun c => fetched today http (crn c))
                                    (stored w)))),
        {| file := Some (omap (fun c => fetched today http (crn c)) (stored w));
           requests := requests w
                       ++ ((fun c => company_url (crn c)) <$> stored w) |}).
Proof.
  intros Hok. split.
  - intros n w1. rewrite refresh_company_data_run. reflexivity.
  - unfold refresh_all_companies, bind, load_companies.
    fold (stored w). rewrite refresh_loop_ok by exact Hok.
    reflexivity.
Qed.

Lemma refresh_all_companies_spec_witness :
  refresh_all_companies today0 http0 world0
  = (inr 1,
     {| file := Some [ {| crn := "00000001"; name := JStr "Example Ltd";
                          status := JStr "active";
                          accounts_due := JStr "2025-01-31";
                          cs_due := JStr "N/A";
                          last_updated := "2024-03-02" |} ];
        requests := [company_url "00000001"; company_url "00000002"] |}).
Proof.
  refine (proj2 (refresh_all_companies_spec today0 http0 world0 _)).
  intros c Hc. change (stored world0) with [ex1; ex2] in Hc.
  apply elem_of_cons in Hc as [-> | Hc];
    [| apply list_elem_of_singleton in Hc as ->];
    eexists; vm_compute; reflexivity.
Defined.

(** When a fetch raises, the exception leaves [refresh_all_companies]
    before anything is saved: here the request for "00000009" fails to
    connect and the file keeps its two records. *)
Example refresh_all_companies_raises :
  let w := {| file := Some [ex1; example_company "00000009" JNull JNull; ex2];
              requests := [] |} in
  refresh_all_companies today0 http0 w
  = (inl ConnectionError,
     {| file := file w;
        requests := [company_url "00000001"; company_url "00000009"] |}).
Proof. vm_compute. reflexivity. Qed.

(** C10: a record [refresh_company_data] returns carries the
    registration number it was asked for; so when the stored records
    have pairwise distinct registration numbers, so do the records in the
    store after [refresh_all_companies], whether it returns or raises. *)
Theorem refresh_all_companies_distinct_crns (today : date)
    (http : string -> exn + (Z * option json)) (w : world) :
  NoDup (crn <$> stored w) ->
  (forall n w1 r w2,
     refresh_company_data today http n w1 = (inr (Some r), w2) -> crn r = n)
  /\ NoDup (crn <$> stored (snd (refresh_all_companies today http w))).
Proof.
  intros Hnd. split.
  - intros n w1 r w2. rewrite refresh_company_data_run. intros [= H _].
    apply (fetch_outcome_crn _ _ _ _ H).
  - unfold refresh_all_companies, bind, load_companies. fold (stored w).
    destruct (refresh_loop_any today http (stored w) [] w) as [Hfile Hres].
    destruct (refresh_loop today http (stored w) [] w) as [[e | l] w'] eqn:E;
      cbn [fst snd] in *.
    + unfold stored at 1. rewrite Hfile. exact Hnd.
    + unfold stored at 1. cbn.
      destruct (Hres l eq_refl) as (kept & Hsub & ->). cbn [app].
      eapply sublist_NoDup; [exact Hnd |]. apply fmap_sublist, Hsub.
Qed.

Lemma refresh_all_companies_distinct_crns_witness :
  NoDup (crn <$> stored (snd (refresh_all_companies today0 http0 world0))).
Proof.
  refine (proj2 (refresh_all_companies_distinct_crns today0 http0 world0 _)).
  apply (bool_decide_unpack _). vm_compute. exact I.
Defined.

(** ** Sorting by the CS01 deadline *)

Lemma filter_fmap_comm {A B} (P : B -> Prop) `{forall b, Decision (P b)}
    (f : A -> B) (l : list A) :
  filter P (f <$> l) = f <$> filter (fun a => P (f a)) l.
Proof.
  induction l as [| a l IH]; [reflexivity |].
  rewrite fmap_cons. destruct (decide (P (f a))) as [HP | HP].
  - rewrite !filter_cons_True by exact HP. rewrite fmap_cons, IH. reflexivity.
  - rewrite !filter_cons_False by exact HP. exact IH.
Qed.

Lemma positions_where_cons (x : option Z) (items : list (option Z)) (b : bool) :
  positions_where (x :: items) b
  = (if decide (bool_decide (x = None) = b) then [0%nat] else [])
    ++ (S <$> positions_where items b).
Proof.
  unfold positions_where. cbn [length]. rewrite <- cons_seq, <- fmap_S_seq.
  rewrite filter_cons, filter_fmap_comm. unfold isna. cbn [lookup list_lookup].
  assert (Hx : bool_decide (Some x = Some None) = bool_decide (x = None)).
  { apply bool_decide_ext. split; [intros [= ->] | intros ->]; reflexivity. }
  rewrite Hx. destruct (decide (bool_decide (x = None) = b)); reflexivity.
Qed.

Lemma positions_where_nil (b : bool) : positions_where [] b = [].
Proof. reflexivity. Qed.

(** The [j]-th present position holds the [j]-th present key. *)
Lemma non_nan_lookup (items : list (option Z)) :
  (fun i => items !! i) <$> positions_where items false
  = (fun x => Some (Some x)) <$> omap id items.
Proof.
  induction items as [| [x |] items IH]; [reflexivity | |].
  - rewrite positions_where_cons.
    rewrite decide_True by (apply bool_decide_eq_false; discriminate).
    cbn [app omap list_omap id]. rewrite !fmap_cons, <- list_fmap_compose.
    f_equal. exact IH.
  - rewrite positions_where_cons.
    rewrite decide_False
      by (rewrite bool_decide_eq_true_2 by reflexivity; discriminate).
    cbn [app omap list_omap id]. rewrite <- list_fmap_compose. exact IH.
Qed.

Lemma nan_lookup (items : list (option Z)) (i : nat) :
  i ∈ positions_where items true -> items !! i = Some None.
Proof.
  unfold positions_where. rewrite list_elem_of_filter. intros [H _].
  unfold isna in H. apply bool_decide_eq_true in H. exact H.
Qed.

Lemma positions_where_perm (items : list (option Z)) :
  Permutation (positions_where items false ++ positions_where items true)
              (seq 0 (length items)).
Proof.
  unfold positions_where.
  rewrite (list_filter_iff (fun i => isna items i = true)
                           (fun i => ~ isna items i = false)).
  - apply filter_app_complement.
  - intros i. destruct (isna items i); split; congruence.
Qed.

Lemma omap_lookup_seq {A} (l : list A) :
  omap (fun i => l !! i) (seq 0 (length l)) = l.
Proof.
  induction l as [| x l IH]; [reflexivity |].
  cbn [length]. rewrite <- cons_seq, <- fmap_S_seq.
  cbn [omap list_omap lookup list_lookup]. f_equal.
  rewrite <- IH at 2. clear IH.
  induction (seq 0 (length l)) as [| i s IHs]; [reflexivity |].
  rewrite fmap_cons. cbn [omap list_omap lookup list_lookup].
  rewrite IHs. reflexivity.
Qed.

Lemma df_take_perm_seq {A} (df : list A) (indexer : list nat) :
  Permutation indexer (seq 0 (length df)) -> Permutation (df_take df indexer) df.
Proof.
  intros H. unfold df_take. rewrite H. rewrite omap_lookup_seq. reflexivity.
Qed.

Section SortValues.

Variable argsort : list Z -> list nat.
Hypothesis argsort_ok : argsort_contract argsort.

Lemma indexer_perm (items : list (option Z)) :
  Permutation
    (omap (fun j => positions_where items false !! j) (argsort (omap id items)))
    (positions_where items false).
Proof.
  destruct (argsort_ok (omap id items)) as [Hperm _].
  rewrite Hperm.
  assert (Hlen : length (omap id items) = length (positions_where items false)).
  { pose proof (f_equal length (non_nan_lookup items)) as H.
    rewrite !length_fmap in H. symmetry. exact H. }
  rewrite Hlen, omap_lookup_seq. reflexivity.
Qed.

Lemma nargsort_perm (items : list (option Z)) :
  Permutation (nargsort argsort items) (seq 0 (length items)).
Proof.
  unfold nargsort. rewrite indexer_perm. apply positions_where_perm.
Qed.

(** The keys met along the sorted positions of the present keys. *)
Lemma indexer_keys (items : list (option Z)) (js : list nat) :
  omap (fun i => items !! i)
       (omap (fun j => positions_where items false !! j) js)
  = Some <$> omap (fun j => omap id items !! j) js.
Proof.
  pose proof (non_nan_lookup items) as Hlk.
  induction js as [| j js IH]; [reflexivity |].
  cbn [omap list_omap].
  pose proof (f_equal (fun l => l !! j) Hlk) as Hj. cbn beta in Hj.
  rewrite !list_lookup_fmap in Hj.
  destruct (positions_where items false !! j) as [i |],
           (omap id items !! j) as [x |]; cbn in Hj; try discriminate Hj.
  - injection Hj as Hj. cbn [omap list_omap]. rewrite Hj, IH. reflexivity.
  - exact IH.
Qed.

Lemma nan_keys (items : list (option Z)) :
  Forall (fun k => k = None)
         (omap (fun i => items !! i) (positions_where items true)).
Proof.
  pose proof (nan_lookup items) as H.
  induction (positions_where items true) as [| i l IH]; [constructor |].
  cbn [omap list_omap]. rewrite (H i) by apply list_elem_of_here.
  constructor; [reflexivity |].
  apply IH. intros i' Hi'. apply H, list_elem_of_further, Hi'.
Qed.

End SortValues.

Lemma cs_key_le_sorted (present : list Z) (missing : list (option Z)) :
  Sorted Z.le present -> Forall (fun k => k = None) missing ->
  StronglySorted cs_key_le ((Some <$> present) ++ missing).
Proof.
  intros Hs Hm. apply Sorted_StronglySorted in Hs; [| intros x y z; lia].
  induction Hs as [| x l Hl IH Hx]; cbn [fmap list_fmap app].
  - induction Hm as [| k l Hk Hl IH]; [constructor |].
    subst k. constructor; [exact IH |].
    clear IH. induction Hl as [| k' l' -> Hl' IH']; constructor; [exact I | exact IH'].
  - constructor; [exact IH |].
    apply Forall_app. split.
    + apply Forall_fmap. eapply Forall_impl; [exact Hx |]. intros y Hy. exact Hy.
    + eapply Forall_impl; [exact Hm |]. intros k ->. exact I.
Qed.

Lemma df_take_keys {A} (key : A -> option Z) (df : list A) (indexer : list nat) :
  key <$> df_take df indexer = omap (fun i => (key <$> df) !! i) indexer.
Proof.
  unfold df_take. induction indexer as [| i l IH]; [reflexivity |].
  cbn [omap list_omap]. rewrite list_lookup_fmap.
  destruct (df !! i); cbn; [rewrite IH |]; [reflexivity | exact IH].
Qed.

Lemma StronglySorted_of_keys {A} (key : A -> option Z) (l : list A) :
  StronglySorted cs_key_le (key <$> l) ->
  StronglySorted (fun a b => cs_key_le (key a) (key b)) l.
Proof.
  induction l as [| a l IH]; [constructor |].
  rewrite fmap_cons. intros H. apply StronglySorted_inv in H as [Hl Ha].
  constructor; [apply IH, Hl |].
  rewrite Forall_fmap in Ha. exact Ha.
Qed.

Lemma sort_by_cs_days_unfold (today : date) (nan : bool)
    (argsort : list Z -> list nat) (df : list row) :
  argsort_contract argsort ->
  sort_by_cs_days today nan argsort df
  = df_take df (nargsort argsort (row_key today nan <$> df)).
Proof.
  intros _. destruct df as [| r df]; [| reflexivity].
  cbn [sort_by_cs_days]. unfold df_take.
  induction (nargsort argsort (row_key today nan <$> [])) as [| i l IH];
    [reflexivity | exact IH].
Qed.

Lemma StronglySorted_lookup_lt {A} (R : A -> A -> Prop) (l : list A)
    (i j : nat) (a b : A) :
  StronglySorted R l -> l !! i = Some a -> l !! j = Some b -> (i < j)%nat ->
  R a b.
Proof.
  intros Hs. revert i j. induction Hs as [| x l Hl IH Hx]; intros i j Hi Hj Hij.
  - discriminate Hi.
  - destruct j as [| j]; [lia |]. cbn in Hj. destruct i as [| i].
    + injection Hi as <-. rewrite Forall_lookup in Hx. apply (Hx j b Hj).
    + cbn in Hi. apply (IH i j Hi Hj). lia.
Qed.

(** *** The reference [argsort]s meet the contract *)

Section Insertion.

Variable before : Z -> Z -> bool.
Hypothesis before_true : forall a b, before a b = true -> a <= b.
Hypothesis before_false : forall a b, before a b = false -> b <= a.

Variable v : list Z.

Let key_le (i j : nat) : Prop := nth i v 0 <= nth j v 0.

Lemma insert_pos_perm (i : nat) (sorted : list nat) :
  Permutation (insert_pos before v i sorted) (i :: sorted).
Proof.
  induction sorted as [| j rest IH]; [reflexivity |]. cbn [insert_pos].
  destruct (before _ _); [reflexivity |].
  rewrite IH. apply perm_swap.
Qed.

Lemma insert_pos_hd (i j : nat) (rest : list nat) :
  key_le j i -> HdRel key_le j rest ->
  HdRel key_le j (insert_pos before v i rest).
Proof.
  intros Hji Hrest. destruct rest as [| k rest]; cbn [insert_pos].
  - constructor. exact Hji.
  - destruct (before _ _); constructor; [exact Hji |].
    inversion Hrest; assumption.
Qed.

Lemma insert_pos_sorted (i : nat) (sorted : list nat) :
  Sorted key_le sorted -> Sorted key_le (insert_pos before v i sorted).
Proof.
  induction 1 as [| j rest Hrest IH Hhd]; cbn [insert_pos].
  - repeat constructor.
  - destruct (before (nth i v 0) (nth j v 0)) eqn:E.
    + constructor; [constructor; assumption |].
      constructor. apply before_true, E.
    + constructor; [exact IH |].
      apply insert_pos_hd; [apply before_false, E | exact Hhd].
Qed.

Lemma insertion_fold (l acc : list nat) :
  Permutation (fold_left (fun sorted i => insert_pos before v i sorted) l acc)
              (l ++ acc)
  /\ (Sorted key_le acc ->
      Sorted key_le (fold_left (fun sorted i => insert_pos before v i sorted) l acc)).
Proof.
  revert acc. induction l as [| i l IH]; intros acc; cbn [fold_left app].
  - split; [reflexivity | trivial].
  - destruct (IH (insert_pos before v i acc)) as [Hperm Hsorted]. split.
    + rewrite Hperm, insert_pos_perm. symmetry. apply Permutation_middle.
    + intros Hacc. apply Hsorted, insert_pos_sorted, Hacc.
Qed.

Lemma insertion_argsort_by_perm :
  Permutation (insertion_argsort_by before v) (seq 0 (length v)).
Proof.
  unfold insertion_argsort_by.
  destruct (insertion_fold (seq 0 (length v)) []) as [Hperm _].
  rewrite Hperm, app_nil_r. reflexivity.
Qed.

Lemma insertion_argsort_by_sorted :
  Sorted Z.le (omap (fun i => v !! i) (insertion_argsort_by before v)).
Proof.
  pose proof insertion_argsort_by_perm as Hperm.
  assert (Hs : Sorted key_le (insertion_argsort_by before v)).
  { unfold insertion_argsort_by.
    apply (proj2 (insertion_fold (seq 0 (length v)) [])). constructor. }
  assert (Hin : Forall (fun i => (i < length v)%nat) (insertion_argsort_by before v)).
  { rewrite Hperm. apply Forall_forall. intros i Hi%elem_of_seq. lia. }
  clear Hperm. induction Hs as [| i l Hl IH Hhd]; [constructor |].
  apply Forall_cons in Hin as [Hi Hin]. cbn [omap list_omap].
  destruct (lookup_lt_is_Some_2 v i Hi) as [x Hx]. rewrite Hx.
  constructor; [apply IH, Hin |].
  destruct Hhd as [| j l' Hij]; [constructor |].
  apply Forall_cons in Hin as [Hj _]. cbn [omap list_omap].
  destruct (lookup_lt_is_Some_2 v j Hj) as [y Hy]. rewrite Hy.
  constructor. unfold key_le in Hij.
  rewrite (nth_lookup_Some v i 0 x Hx), (nth_lookup_Some v j 0 y Hy) in Hij.
  exact Hij.
Qed.

End Insertion.

Lemma insertion_argsort_contract : argsort_contract insertion_argsort.
Proof.
  intros v.
  assert (Ht : forall a b, (a <? b) = true -> a <= b)
    by (intros a b H; apply Z.ltb_lt in H; lia).
  assert (Hf : forall a b, (a <? b) = false -> b <= a)
    by (intros a b H; apply Z.ltb_ge in H; exact H).
  split.
  - apply insertion_argsort_by_perm; assumption.
  - apply insertion_argsort_by_sorted; assumption.
Qed.

Lemma insertion_argsort_rev_contract : argsort_contract insertion_argsort_rev.
Proof.
  intros v.
  assert (Ht : forall a b, (a <=? b) = true -> a <= b)
    by (intros a b H; apply Z.leb_le in H; exact H).
  assert (Hf : forall a b, (a <=? b) = false -> b <= a)
    by (intros a b H; apply Z.leb_gt in H; lia).
  split.
  - apply insertion_argsort_by_perm; assumption.
  - apply insertion_argsort_by_sorted; assumption.
Qed.

(** The contract leaves the order of rows with equal keys open: both
    reference [argsort]s meet it, and they order two rows with the same
    CS01 date differently. *)
Example sort_by_cs_days_ties :
  row_key today0 true row_a = row_key today0 true row_b
  /\ sort_by_cs_days today0 true insertion_argsort [row_a; row_b]
     = [row_a; row_b]
  /\ sort_by_cs_days today0 true insertion_argsort_rev [row_a; row_b]
     = [row_b; row_a].
Proof. repeat split; vm_compute; reflexivity. Qed.

Lemma sort_by_cs_days_perm (today : date) (nan : bool)
    (argsort : list Z -> list nat) (df : list row) :
  argsort_contract argsort ->
  Permutation (sort_by_cs_days today nan argsort df) df.
Proof.
  intros Hok. rewrite sort_by_cs_days_unfold by exact Hok.
  apply df_take_perm_seq. rewrite nargsort_perm by exact Hok.
  rewrite length_fmap. reflexivity.
Qed.

Lemma sort_by_cs_days_sorted (today : date) (nan : bool)
    (argsort : list Z -> list nat) (df : list row) :
  argsort_contract argsort ->
  StronglySorted
    (fun r1 r2 => cs_key_le (row_key today nan r1) (row_key today nan r2))
    (sort_by_cs_days today nan argsort df).
Proof.
  intros Hok. rewrite sort_by_cs_days_unfold by exact Hok.
  apply StronglySorted_of_keys. rewrite df_take_keys.
  unfold nargsort. rewrite omap_app, indexer_keys.
  apply cs_key_le_sorted; [apply Hok | apply nan_keys].
Qed.

Lemma days_until_Some_inv (today : date) (x : json) (o : Z) :
  days_until today x = Some o ->
  exists s, x = JStr s /\ String.eqb s "N/A" || String.eqb s "" = false.
Proof.
  intros H. pose proof (days_until_None_iff today x) as Hn.
  destruct x as [| b | n | s | l | l];
    try (rewrite (proj2 Hn I) in H; discriminate H).
  exists s. split; [reflexivity |].
  destruct (String.eqb_spec s "N/A") as [-> | _].
  - rewrite (proj2 Hn (or_intror (or_introl eq_refl))) in H. discriminate H.
  - destruct (String.eqb_spec s "") as [-> | _]; [| reflexivity].
    rewrite (proj2 Hn (or_introl eq_refl)) in H. discriminate H.
Qed.

Lemma row_key_cases (today : date) (nan : bool) (r : row) :
  row_key today nan r
  = match col_cs01_due_date r with
    | JNull => if nan then None else Some 99999
    | JStr s =>
        if String.eqb s "N/A" || String.eqb s "" then Some 99999
        else days_until today (JStr s)
    | _ => None
    end.
Proof.
  unfold row_key, cs_days, df_cell.
  destruct (col_cs01_due_date r) as [| b | n | s | l | l];
    try reflexivity; cbn [in_sentinels negb].
  - destruct nan; reflexivity.
  - unfold days_until. cbn. destruct b; reflexivity.
  - unfold days_until. cbn. destruct (n =? 0); reflexivity.
  - destruct (String.eqb s "N/A" || String.eqb s ""); reflexivity.
  - unfold days_until. cbn. destruct l; reflexivity.
  - unfold days_until. cbn. destruct l; reflexivity.
Qed.

(** C9, as the code behaves: for any [argsort] that returns the
    positions in an order of ascending keys, and whichever way pandas
    stores a [None] in the column, the sorted table is a permutation of
    the rows in ascending order of the sort key, rows without a key
    last.  The key of a row is 99999 when its CS01 date is "N/A" or
    empty, the day offset when the date is another string that parses,
    and missing when it is another string that does not parse or a value
    that is neither a string nor [None]; for the date [None] it is 99999
    when pandas keeps [None] in the column and missing when pandas
    stores NaN.  Hence a row with the date "N/A" or "" (or [None], when
    it is kept) stands after every row whose offset is below 99999. *)
Theorem sort_by_cs_days_spec (today : date) (nan : bool)
    (argsort : list Z -> list nat) (df : list row) :
  argsort_contract argsort ->
  Permutation (sort_by_cs_days today nan argsort df) df
  /\ StronglySorted
       (fun r1 r2 => cs_key_le (row_key today nan r1) (row_key today nan r2))
       (sort_by_cs_days today nan argsort df)
  /\ (forall r, row_key today nan r
                = match col_cs01_due_date r with
                  | JNull => if nan then None else Some 99999
                  | JStr s =>
                      if String.eqb s "N/A" || String.eqb s "" then Some 99999
                      else days_until today (JStr s)
                  | _ => None
                  end)
  /\ (forall i j r1 r2 o,
        sort_by_cs_days today nan argsort df !! i = Some r1 ->
        sort_by_cs_days today nan argsort df !! j = Some r2 ->
        (col_cs01_due_date r1 = JStr "" \/ col_cs01_due_date r1 = JStr "N/A"
         \/ (nan = false /\ col_cs01_due_date r1 = JNull)) ->
        days_until today (col_cs01_due_date r2) = Some o -> o < 99999 ->
        (j < i)%nat).
Proof.
  intros Hok.
  pose proof (sort_by_cs_days_perm today nan argsort df Hok) as Hperm.
  pose proof (sort_by_cs_days_sorted today nan argsort df Hok) as Hsorted.
  repeat (split; [first [assumption | apply row_key_cases] |]).
  intros i j r1 r2 o Hi Hj Hs Ho Hlt.
  assert (Hk1 : row_key today nan r1 = Some 99999).
  { rewrite row_key_cases.
    destruct Hs as [-> | [-> | [-> ->]]]; reflexivity. }
  assert (Hk2 : row_key today nan r2 = Some o).
  { rewrite row_key_cases.
    destruct (days_until_Some_inv today _ o Ho) as (s & Hs2 & Hns).
    rewrite Hs2 in Ho |- *. rewrite Hns. exact Ho. }
  destruct (Nat.lt_total i j) as [Hij | [-> | Hji]]; [| | exact Hji].
  2: { rewrite Hi in Hj. injection Hj as ->. rewrite Hk1 in Hk2.
       injection Hk2 as <-. lia. }
  exfalso.
  pose proof (StronglySorted_lookup_lt _ _ i j r1 r2 Hsorted Hi Hj Hij) as Hle.
  cbn beta in Hle. rewrite Hk1, Hk2 in Hle. cbn in Hle. lia.
Qed.

Lemma sort_by_cs_days_spec_witness :
  Permutation
    (sort_by_cs_days today0 true insertion_argsort
       [row_far; row_null; row_a; row_na])
    [row_far; row_null; row_a; row_na]
  /\ StronglySorted
       (fun r1 r2 => cs_key_le (row_key today0 true r1) (row_key today0 true r2))
       (sort_by_cs_days today0 true insertion_argsort
          [row_far; row_null; row_a; row_na]).
Proof.
  pose proof (sort_by_cs_days_spec today0 true insertion_argsort
                [row_far; row_null; row_a; row_na] insertion_argsort_contract)
    as (Hperm & Hsorted & _).
  split; [exact Hperm | exact Hsorted].
Defined.

(** C9, as stated, fails: the sentinel is a number, so on 2 March 2024 a
    row without a CS01 date stands before a row whose CS01 date is
    9999-12-31, not at the end. *)
Lemma sort_by_cs_days_unknown_not_last :
  ~ unknown_rows_last today0
      (sort_by_cs_days today0 true insertion_argsort [row_na; row_far]).
Proof.
  intros H.
  assert (Hlt : (1 < 0)%nat).
  { apply (H 0%nat 1%nat row_na row_far);
      [vm_compute; reflexivity .. | vm_compute; discriminate]. }
  lia.
Qed.

(** The same holds for every [argsort] that meets the contract and for
    both ways of storing [None]. *)
Lemma sort_by_cs_days_unknown_not_last_any (nan : bool)
    (argsort : list Z -> list nat) :
  argsort_contract argsort ->
  ~ unknown_rows_last today0
      (sort_by_cs_days today0 nan argsort [row_far; row_na]).
Proof.
  intros Hok H.
  pose proof (sort_by_cs_days_perm today0 nan argsort [row_far; row_na] Hok)
    as Hperm.
  pose proof (sort_by_cs_days_sorted today0 nan argsort [row_far; row_na] Hok)
    as Hs.
  destruct (sort_by_cs_days today0 nan argsort [row_far; row_na])
    as [| a [| b [| c l]]];
    try (apply Permutation_length in Hperm; discriminate Hperm).
  apply Permutation_length_2 in Hperm as [[-> ->] | [-> ->]].
  - apply StronglySorted_inv in Hs as [_ Hs]. apply Forall_cons in Hs as [Hs _].
    vm_compute in Hs. apply Hs. reflexivity.
  - assert (Hlt : (1 < 0)%nat); [| lia].
    apply (H 0%nat 1%nat row_na row_far);
      [reflexivity | reflexivity | vm_compute; reflexivity | vm_compute; discriminate].
Qed.

(** A row whose CS01 date is [None]: when pandas stores NaN for it, it
    has no key and stands last, also after a date far in the future;
    when pandas keeps [None], it has the key 99999 and stands before
    that date. *)
Example sort_by_cs_days_null_date :
  sort_by_cs_days today0 true insertion_argsort [row_null; row_far]
  = [row_far; row_null]
  /\ sort_by_cs_days today0 false insertion_argsort [row_null; row_far]
     = [row_null; row_far].
Proof. split; vm_compute; reflexivity. Qed.

(** * Further properties of the store *)

Lemma delete_company_run (n : string) (w : world) :
  delete_company n w
  = (inr tt, {| file := Some (filter (fun c => crn c <> n) (stored w));
                requests := requests w |}).
Proof. reflexivity. Qed.

Lemma stored_mk (data : list company) (reqs : list string) :
  stored {| file := Some data; requests := reqs |} = data.
Proof. reflexivity. Qed.

Lemma filter_crn_all (companies : list company) (n : string) :
  (forall c, c ∈ companies -> crn c <> n) ->
  filter (fun c => crn c <> n) companies = companies.
Proof.
  induction companies as [| c cs IH]; intros H; [reflexivity |].
  rewrite filter_cons_True by (apply H, list_elem_of_here).
  f_equal. apply IH. intros c' Hc'. apply H, list_elem_of_further, Hc'.
Qed.

Lemma crn_saved_false_iff (companies : list company) (n : string) :
  crn_saved companies n = false <-> forall c, c ∈ companies -> crn c <> n.
Proof.
  split.
  - intros H c Hc Heq.
    assert (crn_saved companies n = true)
      by (apply crn_saved_iff; exists c; split; assumption).
    congruence.
  - intros H. destruct (crn_saved companies n) eqn:E; [| reflexivity].
    apply crn_saved_iff in E as (c & Hc & Heq). destruct (H c Hc Heq).
Qed.

(** X1: [delete_company] keeps exactly the stored records with another
    registration number; a second call with the same number changes
    nothing, and a number that is not stored leaves the collection as
    it is. *)
Theorem delete_company_idempotent (w : world) (n : string) :
  let w1 := snd (delete_company n w) in
  (forall c, c ∈ stored w1 <-> c ∈ stored w /\ crn c <> n)
  /\ stored w1 `sublist_of` stored w
  /\ delete_company n w1 = (inr tt, w1)
  /\ ((forall c, c ∈ stored w -> crn c <> n) -> stored w1 = stored w).
Proof.
  cbn zeta. rewrite delete_company_run. cbn [snd].
  unfold stored at 1 2 5. cbn [file].
  split; [| split; [| split]].
  - intros c. rewrite list_elem_of_filter. tauto.
  - apply sublist_filter.
  - rewrite delete_company_run. unfold stored at 1. cbn [file requests].
    rewrite list_filter_filter.
    rewrite (list_filter_iff _ (fun c => crn c <> n)) by (intros c; tauto).
    reflexivity.
  - apply filter_crn_all.
Qed.

Lemma delete_company_idempotent_witness :
  stored (snd (delete_company "00000003" world0)) = stored world0.
Proof.
  apply (proj2 (proj2 (proj2 (delete_company_idempotent world0 "00000003")))).
  intros c Hc. change (stored world0) with [ex1; ex2] in Hc.
  apply elem_of_cons in Hc as [-> | Hc]; [discriminate |].
  apply list_elem_of_singleton in Hc as ->. discriminate.
Defined.

(** X2: [add_company] and [delete_company] keep the registration
    numbers of the stored records pairwise distinct. *)
Theorem store_distinct_crns_kept (w : world) (r : company) (n : string) :
  NoDup (crn <$> stored w) ->
  NoDup (crn <$> stored (snd (add_company r w)))
  /\ NoDup (crn <$> stored (snd (delete_company n w))).
Proof.
  intros Hnd. split.
  - rewrite add_company_run.
    destruct (crn_saved (stored w) (crn r)) eqn:E; cbn [snd]; [exact Hnd |].
    unfold stored at 1. cbn [file]. rewrite fmap_app. cbn.
    apply NoDup_app. split; [exact Hnd |]. split; [| apply NoDup_singleton].
    intros x Hx Hx'. apply list_elem_of_singleton in Hx' as ->.
    apply list_elem_of_fmap in Hx as (c & Hc & Hin).
    apply crn_saved_false_iff with (c := c) in E; [congruence | exact Hin].
  - rewrite delete_company_run. cbn [snd]. unfold stored at 1. cbn [file].
    eapply sublist_NoDup; [exact Hnd |]. apply fmap_sublist, sublist_filter.
Qed.

Lemma store_distinct_crns_kept_witness :
  NoDup (crn <$> stored (snd (add_company ex3 world0)))
  /\ NoDup (crn <$> stored (snd (delete_company "00000001" world0))).
Proof.
  apply (store_distinct_crns_kept world0 ex3 "00000001").
  apply (bool_decide_unpack _). vm_compute. exact I.
Defined.

(** X3: adding a record whose registration number is new and deleting
    that number again gives back the stored collection; deleting a
    number and then adding a record with it always succeeds and leaves
    that record as the only one with the number, at the end. *)
Theorem add_delete_round_trip (w : world) (r : company) :
  ((forall c, c ∈ stored w -> crn c <> crn r) ->
   stored (snd (delete_company (crn r) (snd (add_company r w)))) = stored w)
  /\ add_company r (snd (delete_company (crn r) w))
     = (inr true,
        {| file := Some (filter (fun c => crn c <> crn r) (stored w) ++ [r]);
           requests := requests w |}).
Proof.
  split.
  - intros Hnew. rewrite add_company_run.
    rewrite (proj2 (crn_saved_false_iff _ _) Hnew). cbn [snd].
    rewrite delete_company_run. cbn [snd]. unfold stored at 1 2. cbn [file].
    rewrite filter_app, filter_crn_all by exact Hnew.
    rewrite filter_cons_False by (intros H; apply H; reflexivity).
    rewrite filter_nil. apply app_nil_r.
  - rewrite delete_company_run. cbn [snd]. rewrite add_company_run.
    rewrite !stored_mk. cbn [requests].
    assert (E : crn_saved (filter (fun c => crn c <> crn r) (stored w)) (crn r)
                = false).
    { apply crn_saved_false_iff. intros c Hc. apply list_elem_of_filter in Hc.
      tauto. }
    rewrite E. reflexivity.
Qed.

Lemma add_delete_round_trip_witness :
  stored (snd (delete_company (crn ex3) (snd (add_company ex3 world0))))
  = stored world0.
Proof.
  apply (proj1 (add_delete_round_trip world0 ex3)).
  intros c Hc. change (stored world0) with [ex1; ex2] in Hc.
  apply elem_of_cons in Hc as [-> | Hc]; [discriminate |].
  apply list_elem_of_singleton in Hc as ->. discriminate.
Defined.

(** X4: whatever [add_company] returns, the records stored before are
    still stored in the same places, a record with the number of the
    argument is stored, the store has grown by one record exactly when
    the result is [True], and no request has been sent. *)
Theorem add_company_keeps_records (w : world) (r : company) :
  let w1 := snd (add_company r w) in
  stored w `prefix_of` stored w1
  /\ crn r ∈ crn <$> stored w1
  /\ (exists b, fst (add_company r w) = inr b
                /\ length (stored w1)
                   = (length (stored w) + if b then 1 else 0)%nat)
  /\ requests w1 = requests w.
Proof.
  cbn zeta. rewrite add_company_run.
  destruct (crn_saved (stored w) (crn r)) eqn:E; cbn [fst snd].
  - split; [reflexivity |]. split.
    + apply crn_saved_iff in E as (c & Hc & <-). apply list_elem_of_fmap_2, Hc.
    + split; [| reflexivity]. exists false. split; [reflexivity | lia].
  - rewrite !stored_mk. cbn [requests].
    split; [apply prefix_app_r; reflexivity |].
    split; [| split; [| reflexivity]].
    + rewrite fmap_app. apply elem_of_app. right. apply list_elem_of_here.
    + exists true. split; [reflexivity |]. rewrite length_app. reflexivity.
Qed.

(** * Further properties of the refresh *)

Lemma refresh_loop_requests (today : date)
    (http : string -> exn + (Z * option json))
    (companies updated_list : list company) (w : world) :
  exists k,
    (k <= length companies)%nat
    /\ requests (snd (refresh_loop today http companies updated_list w))
       = requests w ++ take k ((fun c => company_url (crn c)) <$> companies)
    /\ (forall l, fst (refresh_loop today http companies updated_list w) = inr l ->
        k = length companies).
Proof.
  revert updated_list w.
  induction companies as [| c cs IH]; intros updated_list w.
  - exists 0%nat. cbn. rewrite app_nil_r. repeat split; lia.
  - cbn [refresh_loop]. unfold bind at 1 2. rewrite refresh_company_data_run.
    destruct (fetch_outcome today http (crn c)) as [e | res].
    + exists 1%nat. cbn. split; [lia |]. split; [reflexivity | discriminate].
    + match goal with
      | |- context [refresh_loop today http cs ?acc ?w'] =>
          destruct (IH acc w') as (k & Hk & Hreq & Hall)
      end.
      exists (S k). cbn [length]. split; [lia |]. split.
      * rewrite Hreq. cbn [requests]. rewrite fmap_cons, <- app_assoc.
        reflexivity.
      * intros l Hl. f_equal. apply (Hall l Hl).
Qed.

Lemma refresh_all_companies_run (today : date)
    (http : string -> exn + (Z * option json)) (w : world) :
  refresh_all_companies today http w
  = match refresh_loop today http (stored w) [] w with
    | (inl e, w') => (inl e, w')
    | (inr l, w') =>
        (inr (Z.of_nat (length l)),
         {| file := Some l; requests := requests w' |})
    end.
Proof.
  unfold refresh_all_companies, bind, load_companies. fold (stored w).
  destruct (refresh_loop today http (stored w) [] w) as [[e | l] w'];
    reflexivity.
Qed.

(** X5: when [refresh_all_companies] raises, the file is what it was;
    in every case the requests sent are the URLs of the first [k] stored
    records, in order, and of all of them when it returns. *)
Theorem refresh_all_companies_raise_keeps_file (today : date)
    (http : string -> exn + (Z * option json)) (w : world) :
  let w1 := snd (refresh_all_companies today http w) in
  (forall e, fst (refresh_all_companies today http w) = inl e ->
             file w1 = file w)
  /\ exists k,
       (k <= length (stored w))%nat
       /\ requests w1
          = requests w ++ take k ((fun c => company_url (crn c)) <$> stored w)
       /\ (forall n, fst (refresh_all_companies today http w) = inr n ->
           k = length (stored w)).
Proof.
  cbn zeta. rewrite refresh_all_companies_run.
  destruct (refresh_loop_any today http (stored w) [] w) as [Hfile _].
  destruct (refresh_loop_requests today http (stored w) [] w)
    as (k & Hk & Hreq & Hall).
  destruct (refresh_loop today http (stored w) [] w) as [[e | l] w'] eqn:E;
    cbn [fst snd] in *.
  - split; [intros _ _; exact Hfile |].
    exists k. split; [exact Hk |]. split; [exact Hreq | discriminate].
  - split; [discriminate |].
    exists k. split; [exact Hk |]. split; [exact Hreq |].
    intros _ _. apply (Hall l eq_refl).
Qed.

Lemma refresh_all_companies_raise_keeps_file_witness :
  file (snd (refresh_all_companies today0 http0
               {| file := Some [ex1; example_company "00000009" JNull JNull; ex2];
                  requests := [] |}))
  = Some [ex1; example_company "00000009" JNull JNull; ex2].
Proof.
  apply (proj1 (refresh_all_companies_raise_keeps_file today0 http0
    {| file := Some [ex1; example_company "00000009" JNull JNull; ex2];
       requests := [] |}) ConnectionError).
  vm_compute. reflexivity.
Defined.

(** X6: the number [refresh_all_companies] returns is the number of
    records in the store afterwards and at most the number stored
    before, and the registration numbers stored afterwards are, in
    order, among those stored before. *)
Theorem refresh_all_companies_count (today : date)
    (http : string -> exn + (Z * option json)) (w : world) (n : Z) :
  fst (refresh_all_companies today http w) = inr n ->
  let w1 := snd (refresh_all_companies today http w) in
  n = Z.of_nat (length (stored w1))
  /\ n <= Z.of_nat (length (stored w))
  /\ (crn <$> stored w1) `sublist_of` (crn <$> stored w).
Proof.
  cbn zeta. rewrite refresh_all_companies_run.
  destruct (refresh_loop_any today http (stored w) [] w) as [_ Hres].
  destruct (refresh_loop today http (stored w) [] w) as [[e | l] w'] eqn:E;
    cbn [fst snd] in *; [discriminate |].
  intros [= <-]. rewrite stored_mk.
  destruct (Hres l eq_refl) as (kept & Hsub & Hcrn). cbn [app] in Hcrn.
  assert (Hsub' : (crn <$> l) `sublist_of` (crn <$> stored w))
    by (rewrite Hcrn; apply fmap_sublist, Hsub).
  split; [reflexivity |]. split; [| exact Hsub'].
  apply sublist_length in Hsub'. rewrite !length_fmap in Hsub'. lia.
Qed.

Lemma refresh_all_companies_count_witness :
  1 = Z.of_nat (length (stored (snd (refresh_all_companies today0 http0 world0))))
  /\ 1 <= Z.of_nat (length (stored world0))
  /\ (crn <$> stored (snd (refresh_all_companies today0 http0 world0)))
       `sublist_of` (crn <$> stored world0).
Proof.
  apply (refresh_all_companies_count today0 http0 world0 1).
  vm_compute. reflexivity.
Defined.

Lemma omap_fetched_fixed (today : date)
    (http : string -> exn + (Z * option json)) (l : list company) :
  (forall r, r ∈ l -> fetch_outcome today http (crn r) = inr (Some r)) ->
  omap (fun c => fetched today http (crn c)) l = l.
Proof.
  induction l as [| r l IH]; intros H; [reflexivity |].
  cbn [omap list_omap]. unfold fetched at 1.
  rewrite (H r) by apply list_elem_of_here. f_equal.
  apply IH. intros r' Hr'. apply H, list_elem_of_further, Hr'.
Qed.

Lemma fetched_again (today : date)
    (http : string -> exn + (Z * option json)) (l : list company) (r : company) :
  r ∈ omap (fun c => fetched today http (crn c)) l ->
  fetch_outcome today http (crn r) = inr (Some r).
Proof.
  intros Hr. apply list_elem_of_omap in Hr as (c & _ & Hc).
  unfold fetched in Hc.
  destruct (fetch_outcome today http (crn c)) as [e | res] eqn:E;
    [discriminate |].
  subst res. rewrite (fetch_outcome_crn _ _ _ _ E). exact E.
Qed.

(** X7: with the same registry answers on the same day, a second
    [refresh_all_companies] after one that returned saves the same
    collection again and returns the same number. *)
Theorem refresh_all_companies_idempotent (today : date)
    (http : string -> exn + (Z * option json)) (w : world) :
  (forall c, c ∈ stored w ->
     exists res, fetch_outcome today http (crn c) = inr res) ->
  let w1 := snd (refresh_all_companies today http w) in
  fst (refresh_all_companies today http w1)
  = fst (refresh_all_companies today http w)
  /\ file (snd (refresh_all_companies today http w1)) = file w1.
Proof.
  intros Hok. cbn zeta.
  assert (Hrun : forall v,
    (forall c, c ∈ stored v ->
       exists res, fetch_outcome today http (crn c) = inr res) ->
    refresh_all_companies today http v
    = (inr (Z.of_nat (length (omap (fun c => fetched today http (crn c))
                                   (stored v)))),
       {| file := Some (omap (fun c => fetched today http (crn c)) (stored v));
          requests := requests v
                      ++ ((fun c => company_url (crn c)) <$> stored v) |})).
  { intros v Hv. unfold refresh_all_companies, bind, load_companies.
    fold (stored v). rewrite refresh_loop_ok by exact Hv. reflexivity. }
  rewrite (Hrun w Hok). cbn [fst snd].
  rewrite Hrun; rewrite stored_mk.
  - rewrite omap_fetched_fixed by (intros r Hr; eapply fetched_again, Hr).
    split; reflexivity.
  - intros r Hr. eexists. eapply fetched_again, Hr.
Qed.

Lemma refresh_all_companies_idempotent_witness :
  fst (refresh_all_companies today0 http0
         (snd (refresh_all_companies today0 http0 world0)))
  = inr 1.
Proof.
  refine (eq_trans
    (proj1 (refresh_all_companies_idempotent today0 http0 world0 _)) _);
    [| vm_compute; reflexivity].
  intros c Hc. change (stored world0) with [ex1; ex2] in Hc.
  apply elem_of_cons in Hc as [-> | Hc];
    [| apply list_elem_of_singleton in Hc as ->];
    eexists; vm_compute; reflexivity.
Defined.

(** X8: [refresh_company_data] returns [None], so that the refresh drops
    the company, exactly when the registry answers with a status other
    than 200 or with status 200 and a falsy JSON value (null, false, 0,
    an empty string, list or object). *)
Theorem refresh_company_data_none_iff (today : date)
    (http : string -> exn + (Z * option json)) (n : string) :
  fetch_outcome today http n = inr None
  <-> exists status_code body,
        http (company_url n) = inr (status_code, body)
        /\ (status_code <> 200
            \/ exists profile, body = Some profile /\ truthy profile = false).
Proof.
  unfold fetch_outcome, refresh_company_data, get_json, bind.
  fold (company_url n). cbn [file requests].
  destruct (http (company_url n)) as [e | [status_code body]].
  - split; [discriminate | intros (s & b & H & _); discriminate H].
  - destruct (Z.eqb_spec status_code 200) as [-> | Hne].
    + destruct body as [profile |].
      * destruct (truthy profile) eqn:Ht; cbn [negb].
        -- split.
           ++ destruct profile as [| b | k | s | l | members];
                try discriminate. cbn [dict_get ret].
              destruct (match assoc members "accounts" with
                        | Some v => v | None => JObj [] end); try discriminate.
              destruct (match assoc members "confirmation_statement" with
                        | Some v => v | None => JObj [] end); discriminate.
           ++ intros (s & b & [= <- <-] & [H | (p & [= <-] & Hp)]);
                [destruct H; reflexivity | congruence].
        -- split; [intros _ | reflexivity].
           exists 200, (Some profile). split; [reflexivity |]. right.
           exists profile. split; [reflexivity | exact Ht].
      * split; [discriminate |].
        intros (s & b & [= <- <-] & [H | (p & Hp & _)]);
          [destruct H; reflexivity | discriminate Hp].
    + split; [intros _ | reflexivity].
      exists status_code, body. split; [reflexivity | left; exact Hne].
Qed.

(** X9: when the profile is a non-empty object without the members
    "accounts" and "confirmation_statement", the refreshed record has
    "N/A" for both due dates, so that both deadlines show the N/A
    labels and the overall status is "N/A" on every day. *)
Theorem refresh_company_data_missing_dates (today : date)
    (http : string -> exn + (Z * option json)) (n : string)
    (members : list (string * json)) :
  http (company_url n) = inr (200, Some (JObj members)) ->
  members <> [] ->
  assoc members "accounts" = None ->
  assoc members "confirmation_statement" = None ->
  exists r,
    fetch_outcome today http n = inr (Some r)
    /\ crn r = n
    /\ accounts_due r = JStr "N/A" /\ cs_due r = JStr "N/A"
    /\ forall day,
         status_label day (accounts_due r) = "⚪ N/A"%string
         /\ relative_label day (cs_due r) = "N/A"%string
         /\ company_overall_status day r = "N/A"%string.
Proof.
  intros Hhttp Hne Hacc Hcs.
  unfold fetch_outcome, refresh_company_data, get_json, bind.
  fold (company_url n). rewrite Hhttp. cbn [file requests Z.eqb Pos.eqb].
  destruct members as [| m ms]; [contradiction |].
  cbn [truthy negb dict_get ret]. rewrite Hacc, Hcs. cbn [dict_get ret assoc fst].
  eexists. split; [reflexivity |]. cbn [crn accounts_due cs_due].
  repeat split; reflexivity.
Qed.

Lemma refresh_company_data_missing_dates_witness :
  exists r,
    fetch_outcome today0
      (fun _ => inr (200, Some (JObj [("company_name", JStr "Seven Ltd")])))
      "00000007" = inr (Some r)
    /\ crn r = "00000007"%string
    /\ accounts_due r = JStr "N/A" /\ cs_due r = JStr "N/A"
    /\ forall day,
         status_label day (accounts_due r) = "⚪ N/A"%string
         /\ relative_label day (cs_due r) = "N/A"%string
         /\ company_overall_status day r = "N/A"%string.
Proof.
  apply (refresh_company_data_missing_dates today0 _ "00000007"
           [("company_name", JStr "Seven Ltd")]).
  - reflexivity.
  - discriminate.
  - reflexivity.
  - reflexivity.
Defined.

(** * Further properties of the filter and the summary *)

Lemma filtered_companies_not_All (today : date) (choice : string)
    (companies : list company) :
  choice <> "All"%string ->
  filtered_companies today choice companies
  = filter (fun c => company_overall_status today c = choice) companies.
Proof.
  intros Hne. unfold filtered_companies.
  destruct (String.eqb_spec choice "All"); [contradiction | reflexivity].
Qed.

Lemma overall_class_count (today : date) (companies : list company) :
  (length (filter (fun c => overallUrgency_spec today c = Overdue) companies)
   + length (filter (fun c => overallUrgency_spec today c = DueIn7Days) companies)
   + length (filter (fun c => overallUrgency_spec today c = DueIn30Days) companies)
   + length (filter (fun c => overallUrgency_spec today c = OK) companies)
   + length (filter (fun c => overallUrgency_spec today c = Unknown) companies)
   = length companies)%nat.
Proof.
  induction companies as [| c cs IH]; [reflexivity |].
  rewrite !filter_cons.
  destruct (overallUrgency_spec today c);
    repeat case_decide; try discriminate; try congruence;
    cbn [length]; lia.
Qed.

(** X10: every filter result is a sub-sequence of the collection and
    filtering it again with the same choice changes nothing; no company
    is shown under two different choices other than "All"; and the
    numbers of companies under "Overdue", "Due in 7 days", "Due in 30
    days" and "OK", together with the number whose overall status is
    "N/A", add up to the number of companies. *)
Theorem filtered_companies_partition (today : date) (companies : list company) :
  (forall choice, filtered_companies today choice companies `sublist_of` companies)
  /\ (forall choice,
        filtered_companies today choice (filtered_companies today choice companies)
        = filtered_companies today choice companies)
  /\ (forall c choice1 choice2,
        choice1 <> "All"%string -> choice2 <> "All"%string ->
        c ∈ filtered_companies today choice1 companies ->
        c ∈ filtered_companies today choice2 companies ->
        choice1 = choice2)
  /\ (length (filtered_companies today "Overdue" companies)
      + length (filtered_companies today "Due in 7 days" companies)
      + length (filtered_companies today "Due in 30 days" companies)
      + length (filtered_companies today "OK" companies)
      + length (filter (fun c => company_overall_status today c = "N/A"%string)
                       companies)
      = length companies)%nat.
Proof.
  split; [| split; [| split]].
  - intros choice. unfold filtered_companies.
    destruct (String.eqb choice "All"); [reflexivity | apply sublist_filter].
  - intros choice. unfold filtered_companies.
    destruct (String.eqb choice "All"); [reflexivity |].
    rewrite list_filter_filter. apply list_filter_iff. intros c. tauto.
  - intros c choice1 choice2 H1 H2.
    rewrite !filtered_companies_not_All by assumption.
    rewrite !list_elem_of_filter. intros [<- _] [<- _]. reflexivity.
  - change "Overdue"%string with (overall_text Overdue).
    change "Due in 7 days"%string with (overall_text DueIn7Days).
    change "Due in 30 days"%string with (overall_text DueIn30Days).
    change "OK"%string with (overall_text OK).
    rewrite !filtered_companies_class.
    rewrite (list_filter_iff
               (fun c => company_overall_status today c = "N/A"%string)
               (fun c => overallUrgency_spec today c = Unknown)).
    + apply overall_class_count.
    + intros c. rewrite company_overall_status_class.
      change "N/A"%string with (overall_text Unknown).
      split; [apply overall_text_inj | intros ->; reflexivity].
Qed.

Lemma filtered_companies_partition_witness :
  company_overall_status today0 ex1 = "Overdue"%string.
Proof.
  symmetry.
  apply (proj1 (proj2 (proj2
           (filtered_companies_partition today0 [ex1; ex2; ex3]))) ex1
           "Overdue"%string (company_overall_status today0 ex1));
    [discriminate | vm_compute; discriminate | |];
    vm_compute; apply list_elem_of_here.
Defined.

(** The counters as counts over the offsets of both deadlines. *)
Lemma summary_stats_counts (today : date) (companies : list company) :
  summary_stats today companies
  = {| total := Z.of_nat (length companies);
       buckets :=
         {| due_30 := count_offsets (fun o => (8 <=? o) && (o <=? 30))
                        (deadline_offsets today companies);
            due_7 := count_offsets (fun o => (0 <=? o) && (o <=? 7))
                       (deadline_offsets today companies);
            overdue := count_offsets (fun o => o <? 0)
                         (deadline_offsets today companies) |} |}.
Proof.
  unfold summary_stats. rewrite tally_company_fold, tally_fold. reflexivity.
Qed.

Lemma count_offsets_app (test : Z -> bool) (l1 l2 : list (option Z)) :
  count_offsets test (l1 ++ l2) = count_offsets test l1 + count_offsets test l2.
Proof.
  induction l1 as [| [o |] l1 IH]; cbn [app count_offsets]; lia.
Qed.

Lemma count_offsets_perm (test : Z -> bool) (l1 l2 : list (option Z)) :
  Permutation l1 l2 -> count_offsets test l1 = count_offsets test l2.
Proof.
  induction 1 as [| x l1 l2 _ IH | x y l | l1 l2 l3 _ IH1 _ IH2].
  - reflexivity.
  - destruct x; cbn [count_offsets]; lia.
  - destruct x, y; cbn [count_offsets]; lia.
  - congruence.
Qed.

Lemma deadline_offsets_app (today : date) (l1 l2 : list company) :
  deadline_offsets today (l1 ++ l2)
  = deadline_offsets today l1 ++ deadline_offsets today l2.
Proof. unfold deadline_offsets. apply flat_map_app. Qed.

Lemma deadline_offsets_perm (today : date) (l1 l2 : list company) :
  Permutation l1 l2 ->
  Permutation (deadline_offsets today l1) (deadline_offsets today l2).
Proof. unfold deadline_offsets. apply Permutation_flat_map. Qed.

(** X11: the summary of two collections put together is the sum of
    their summaries, counter by counter, and the summary does not depend
    on the order of the companies. *)
Theorem summary_stats_additive (today : date) (l1 l2 : list company) :
  (total (summary_stats today (l1 ++ l2))
   = total (summary_stats today l1) + total (summary_stats today l2)
   /\ overdue (buckets (summary_stats today (l1 ++ l2)))
      = overdue (buckets (summary_stats today l1))
        + overdue (buckets (summary_stats today l2))
   /\ due_7 (buckets (summary_stats today (l1 ++ l2)))
      = due_7 (buckets (summary_stats today l1))
        + due_7 (buckets (summary_stats today l2))
   /\ due_30 (buckets (summary_stats today (l1 ++ l2)))
      = due_30 (buckets (summary_stats today l1))
        + due_30 (buckets (summary_stats today l2)))
  /\ (Permutation l1 l2 -> summary_stats today l1 = summary_stats today l2).
Proof.
  rewrite !summary_stats_counts. cbn [total buckets overdue due_7 due_30].
  rewrite deadline_offsets_app, !count_offsets_app, length_app.
  split; [repeat split; lia |].
  intros Hperm. f_equal; [rewrite Hperm; reflexivity |].
  pose proof (deadline_offsets_perm today l1 l2 Hperm) as Hd.
  f_equal; apply count_offsets_perm, Hd.
Qed.

Lemma summary_stats_additive_witness :
  summary_stats today0 [ex1; ex2; ex3] = summary_stats today0 [ex2; ex3; ex1].
Proof.
  apply (proj2 (summary_stats_additive today0 [ex1; ex2; ex3] [ex2; ex3; ex1])).
  apply (Permutation_cons_append [ex2; ex3] ex1).
Defined.

Lemma company_class_offsets (today : date) (c : company) :
  overallUrgency_spec today c
  = urgencyOf_spec (min_defined (days_until today (accounts_due c))
                                (days_until today (cs_due c))).
Proof. unfold overallUrgency_spec. apply more_urgent_min. Qed.

Lemma tile_vs_class (a b : option Z) :
  let u := urgencyOf_spec (min_defined a b) in
  (if decide (u = Overdue) then 1 else 0)
    <= count_offsets (fun o => o <? 0) [a; b]
    <= 2 * (if decide (u = Overdue) then 1 else 0)
  /\ (if decide (u = DueIn7Days) then 1 else 0)
     <= count_offsets (fun o => (0 <=? o) && (o <=? 7)) [a; b]
  /\ (if decide (u = DueIn30Days) then 1 else 0)
     <= count_offsets (fun o => (8 <=? o) && (o <=? 30)) [a; b].
Proof.
  cbn zeta.
  assert (Hcases : forall o,
    (o < 0 /\ urgencyOf_spec (Some o) = Overdue)
    \/ (0 <= o <= 7 /\ urgencyOf_spec (Some o) = DueIn7Days)
    \/ (8 <= o <= 30 /\ urgencyOf_spec (Some o) = DueIn30Days)
    \/ (30 < o /\ urgencyOf_spec (Some o) = OK)).
  { intros o. pose proof (urgencyOf_spec_ranges o) as (H1 & H2 & H3 & H4 & _).
    destruct (Z_lt_le_dec o 0); [left; tauto |].
    destruct (Z_le_gt_dec o 7); [right; left; split; [lia | apply H2; lia] |].
    destruct (Z_le_gt_dec o 30);
      [right; right; left; split; [lia | apply H3; lia] |].
    right; right; right. split; [lia | apply H4; lia]. }
  assert (Hcount : forall (test : Z -> bool) o,
    count_offsets test [Some o] = if test o then 1 else 0)
    by (intros test o; cbn; destruct (test o); reflexivity).
  destruct a as [x |], b as [y |]; cbn [min_defined count_offsets].
  - destruct (Hcases (Z.min x y)) as [[Hm ->] | [[Hm ->] | [[Hm ->] | [Hm ->]]]];
      repeat case_decide; try discriminate; try congruence;
      destruct (Z.ltb_spec x 0), (Z.ltb_spec y 0),
               (Z.leb_spec 0 x), (Z.leb_spec x 7), (Z.leb_spec 8 x),
               (Z.leb_spec x 30), (Z.leb_spec 0 y), (Z.leb_spec y 7),
               (Z.leb_spec 8 y), (Z.leb_spec y 30);
      cbn [andb]; lia.
  - destruct (Hcases x) as [[Hm ->] | [[Hm ->] | [[Hm ->] | [Hm ->]]]];
      repeat case_decide; try discriminate; try congruence;
      destruct (Z.ltb_spec x 0),
               (Z.leb_spec 0 x), (Z.leb_spec x 7), (Z.leb_spec 8 x),
               (Z.leb_spec x 30);
      cbn [andb]; lia.
  - destruct (Hcases y) as [[Hm ->] | [[Hm ->] | [[Hm ->] | [Hm ->]]]];
      repeat case_decide; try discriminate; try congruence;
      destruct (Z.ltb_spec y 0),
               (Z.leb_spec 0 y), (Z.leb_spec y 7), (Z.leb_spec 8 y),
               (Z.leb_spec y 30);
      cbn [andb]; lia.
  - cbn. repeat case_decide; try discriminate; lia.
Qed.

(** X12: the tiles count deadlines, the filters companies.  Each of the
    counters "Overdue", "Due in 7 Days" and "Due in 30 Days" is at least
    the number of companies the filter of the same name shows, and the
    overdue counter is at most twice that number. *)
Theorem summary_stats_vs_filter (today : date) (companies : list company) :
  Z.of_nat (length (filtered_companies today "Overdue" companies))
    <= overdue (buckets (summary_stats today companies))
    <= 2 * Z.of_nat (length (filtered_companies today "Overdue" companies))
  /\ Z.of_nat (length (filtered_companies today "Due in 7 days" companies))
     <= due_7 (buckets (summary_stats today companies))
  /\ Z.of_nat (length (filtered_companies today "Due in 30 days" companies))
     <= due_30 (buckets (summary_stats today companies)).
Proof.
  change "Overdue"%string with (overall_text Overdue).
  change "Due in 7 days"%string with (overall_text DueIn7Days).
  change "Due in 30 days"%string with (overall_text DueIn30Days).
  rewrite !filtered_companies_class, summary_stats_counts.
  cbn [buckets overdue due_7 due_30].
  induction companies as [| c cs IH]; [cbn; lia |].
  change (deadline_offsets today (c :: cs))
    with ([days_until today (accounts_due c); days_until today (cs_due c)]
          ++ deadline_offsets today cs).
  rewrite !count_offsets_app, !filter_cons.
  pose proof (tile_vs_class (days_until today (accounts_due c))
                            (days_until today (cs_due c))) as Hc.
  cbn zeta in Hc. rewrite <- company_class_offsets in Hc.
  repeat case_decide; cbn [length]; lia.
Qed.

(** * Further properties of the relative label *)

Lemma string_app_cons (x : ascii) (a b : string) :
  (String x a ++ b = String x (a ++ b))%string.
Proof. reflexivity. Qed.

Lemma string_app_assoc (a b c : string) :
  ((a ++ b) ++ c = a ++ (b ++ c))%string.
Proof.
  induction a as [| x a IH]; [reflexivity |].
  rewrite !string_app_cons. f_equal. exact IH.
Qed.

Lemma last_char_app (a b : string) :
  b <> ""%string -> last_char (a ++ b) = last_char b.
Proof.
  intros Hb. induction a as [| x a IH]; [reflexivity |].
  rewrite string_app_cons. cbn [last_char]. rewrite IH.
  destruct (last_char b) eqn:E; [reflexivity |].
  destruct b; [contradiction |]. cbn [last_char] in E.
  destruct (last_char b); discriminate E.
Qed.

(** [str(n)] of a number that is not negative starts with a digit. *)
Lemma str_first_digit (n : Z) :
  0 <= n -> exists c s, str n = String c s /\ is_digit c = true.
Proof.
  intros Hn. unfold str, Z.to_int. destruct n as [| p | p]; [| | lia].
  - exists "0"%char, ""%string. split; reflexivity.
  - cbn [NilZero.string_of_int]. destruct (Pos.to_uint p);
      eexists _, _; (split; [reflexivity | reflexivity]).
Qed.

Lemma digit_label (n : Z) (rest : string) :
  0 <= n ->
  (forall s, (str n ++ rest)%string <> ("in " ++ s)%string)
  /\ (str n ++ rest)%string <> "N/A"%string.
Proof.
  intros Hn. destruct (str_first_digit n Hn) as (c & s & -> & Hc).
  rewrite string_app_cons. split.
  - intros s' [= -> _]. discriminate Hc.
  - intros [= -> _]. discriminate Hc.
Qed.

(** X13: [relative_label] tells the direction.  It is "N/A" exactly
    when there is no day offset, starts with "in " exactly for an offset
    of 0 or more, and ends in " ago" exactly for a negative offset,
    which is exactly when [status_label] shows Overdue. *)
Theorem relative_label_direction (today : date) (x : json) :
  (relative_label today x = "N/A"%string <-> days_until today x = None)
  /\ ((exists s, relative_label today x = ("in " ++ s)%string)
      <-> exists o, days_until today x = Some o /\ 0 <= o)
  /\ ((exists s, relative_label today x = (s ++ " ago")%string)
      <-> exists o, days_until today x = Some o /\ o < 0)
  /\ (status_label today x = "🔴 Overdue"%string
      <-> exists s, relative_label today x = (s ++ " ago")%string).
Proof.
  assert (Hago : forall s t : string,
            last_char t <> Some "o"%char -> t <> (s ++ " ago")%string).
  { intros s t Ht ->. apply Ht. rewrite last_char_app by discriminate.
    reflexivity. }
  unfold relative_label, status_label.
  destruct (days_until today x) as [o |].
  2: { split; [tauto |].
       split; [split; [intros (s & H); discriminate H
                      | intros (o & H & _); discriminate] |].
       split; split; try discriminate.
       - intros (s & H). exfalso. revert H. apply Hago. discriminate.
       - intros (o & H & _). discriminate.
       - intros (s & H). exfalso. revert H. apply Hago. discriminate. }
  destruct (Z.ltb_spec o 0) as [Hneg | Hpos].
  - assert (Hpast : exists s,
      (if Z.abs o / 30 =? 0 then (str (Z.abs o) ++ " days ago")%string
       else (str (Z.abs o / 30) ++ " month" ++ plural (Z.abs o / 30) ++ " ago")%string)
      = (s ++ " ago")%string).
    { destruct (Z.abs o / 30 =? 0).
      - exists (str (Z.abs o) ++ " days")%string.
        rewrite string_app_assoc. reflexivity.
      - exists (str (Z.abs o / 30) ++ " month" ++ plural (Z.abs o / 30))%string.
        rewrite !string_app_assoc. reflexivity. }
    assert (Hdigit : exists n rest, 0 <= n /\
      (if Z.abs o / 30 =? 0 then (str (Z.abs o) ++ " days ago")%string
       else (str (Z.abs o / 30) ++ " month" ++ plural (Z.abs o / 30) ++ " ago")%string)
      = (str n ++ rest)%string).
    { destruct (Z.abs o / 30 =? 0).
      - exists (Z.abs o), " days ago"%string. split; [lia | reflexivity].
      - eexists (Z.abs o / 30), _. split; [| reflexivity].
        apply Z.div_pos; lia. }
    destruct Hdigit as (n & rest & Hn & Heq). rewrite Heq in Hpast |- *.
    destruct (digit_label n rest Hn) as [Hpre Hna].
    split; [split; [intros H; destruct (Hna H) | discriminate] |].
    split; [split; [intros (s & H); destruct (Hpre s H)
                   | intros (o' & [= <-] & H); lia] |].
    split; [split; [intros _; exists o; split; [reflexivity | lia] | intros _; exact Hpast] |].
    split; [intros _; exact Hpast | reflexivity].
  - assert (Hfuture : exists rest,
      (if o <? 30 then ("in " ++ str o ++ " days")%string
       else ("in " ++ str (o / 30) ++ " month" ++ plural (o / 30))%string)
      = ("in " ++ rest)%string
      /\ rest <> ""%string
      /\ last_char rest <> Some "o"%char).
    { destruct (o <? 30).
      - exists (str o ++ " days")%string. split; [reflexivity |].
        rewrite last_char_app by discriminate.
        split; [| discriminate].
        destruct (str_first_digit o Hpos) as (c & s & -> & _). discriminate.
      - exists (str (o / 30) ++ " month" ++ plural (o / 30))%string.
        split; [reflexivity |].
        assert (0 <= o / 30) as H30 by (apply Z.div_pos; lia).
        split.
        + destruct (str_first_digit _ H30) as (c & s & -> & _). discriminate.
        + rewrite last_char_app by (destruct (plural (o / 30)); discriminate).
          unfold plural. destruct (negb (o / 30 =? 1)); discriminate. }
    destruct Hfuture as (rest & -> & Hrest & Hlast).
    assert (Hnotago : forall s, ("in " ++ rest)%string <> (s ++ " ago")%string).
    { intros s. apply Hago. rewrite last_char_app by exact Hrest. exact Hlast. }
    split; [split; discriminate |].
    split; [split; [intros _; exists o; split; [reflexivity | lia]
                   | intros _; exists rest; reflexivity] |].
    split; [split; [intros (s & H); destruct (Hnotago s H)
                   | intros (o' & [= <-] & H); lia] |].
    split.
    + destruct (o <=? 7); [discriminate |]. destruct (o <=? 30); discriminate.
    + intros (s & H). destruct (Hnotago s H).
Qed.

(** * The day offset follows the calendar *)

Lemma days_before_year_step (y : Z) :
  _days_before_year (y + 1)
  = _days_before_year y + 365 + (if _is_leap y then 1 else 0).
Proof.
  unfold _days_before_year, _is_leap. cbn zeta.
  replace (y + 1 - 1) with y by lia.
  destruct (Z.eqb_spec (y mod 4) 0), (Z.eqb_spec (y mod 100) 0),
           (Z.eqb_spec (y mod 400) 0); cbn [andb orb negb];
    Z.div_mod_to_equations; lia.
Qed.

Lemma days_before_year_mono (y1 y2 : Z) :
  y1 <= y2 -> _days_before_year y1 <= _days_before_year y2.
Proof.
  intros H. replace y2 with (y1 + Z.of_nat (Z.to_nat (y2 - y1))) by lia.
  induction (Z.to_nat (y2 - y1)) as [| k IH]; [rewrite Z.add_0_r; lia |].
  rewrite Nat2Z.inj_succ, <- Z.add_1_r, Z.add_assoc, days_before_year_step.
  destruct (_is_leap _); lia.
Qed.

Ltac calendar_compute :=
  repeat match goal with
         | |- context [Z.to_nat ?k] =>
             let v := eval vm_compute in (Z.to_nat k) in
             change (Z.to_nat k) with v
         | H : context [Z.to_nat ?k] |- _ =>
             let v := eval vm_compute in (Z.to_nat k) in
             change (Z.to_nat k) with v in H
         | |- context [?a <? ?b] =>
             let v := eval vm_compute in (a <? b) in
             change (a <? b) with v
         | |- context [?a =? ?b] =>
             let v := eval vm_compute in (a =? b) in
             change (a =? b) with v
         | H : context [?a =? ?b] |- _ =>
             let v := eval vm_compute in (a =? b) in
             change (a =? b) with v in H
         end;
  cbn [nth andb _DAYS_BEFORE_MONTH _DAYS_IN_MONTH] in *.

Lemma month_cases (m : Z) :
  1 <= m <= 12 ->
  m = 1 \/ m = 2 \/ m = 3 \/ m = 4 \/ m = 5 \/ m = 6 \/ m = 7 \/ m = 8
  \/ m = 9 \/ m = 10 \/ m = 11 \/ m = 12.
Proof. lia. Qed.

(** Within a year: a valid day of a month lies before the first day of
    the next month and within the length of the year. *)
Lemma days_in_year_bounds (y m d : Z) :
  1 <= m <= 12 -> 1 <= d <= _days_in_month y m ->
  1 <= _days_before_month y m + d
  /\ _days_before_month y m + d <= 365 + (if _is_leap y then 1 else 0)
  /\ (m < 12 -> _days_before_month y m + d <= _days_before_month y (m + 1)).
Proof.
  intros Hm Hd. unfold _days_before_month, _days_in_month in *.
  destruct (_is_leap y);
    destruct (month_cases m Hm)
      as [-> | [-> | [-> | [-> | [-> | [-> | [-> | [-> | [-> | [-> | [-> | ->]]]]]]]]]]];
    calendar_compute; lia.
Qed.

Lemma days_before_month_mono (y m1 m2 : Z) :
  1 <= m1 -> m1 <= m2 -> m2 <= 12 ->
  _days_before_month y m1 <= _days_before_month y m2.
Proof.
  intros H1 H12 H2. unfold _days_before_month.
  assert (Hm1 : 1 <= m1 <= 12) by lia. assert (Hm2 : 1 <= m2 <= 12) by lia.
  destruct (_is_leap y);
    destruct (month_cases m1 Hm1)
      as [-> | [-> | [-> | [-> | [-> | [-> | [-> | [-> | [-> | [-> | [-> | ->]]]]]]]]]]];
    destruct (month_cases m2 Hm2)
      as [-> | [-> | [-> | [-> | [-> | [-> | [-> | [-> | [-> | [-> | [-> | ->]]]]]]]]]]];
    calendar_compute; lia.
Qed.

Lemma toordinal_lt (d1 d2 : date) :
  valid_date d1 -> valid_date d2 -> date_lt d1 d2 ->
  toordinal d1 < toordinal d2.
Proof.
  intros (Hy1 & Hm1 & Hd1) (Hy2 & Hm2 & Hd2) Hlt.
  unfold toordinal, _ymd2ord.
  destruct (days_in_year_bounds _ _ _ Hm1 Hd1) as (Hlo1 & Hhi1 & Hnext1).
  destruct (days_in_year_bounds _ _ _ Hm2 Hd2) as (Hlo2 & Hhi2 & Hnext2).
  destruct Hlt as [Hy | [Hy [Hm | [Hm Hd]]]].
  - pose proof (days_before_year_step (year d1)) as Hstep.
    pose proof (days_before_year_mono (year d1 + 1) (year d2)) as Hmono.
    lia.
  - rewrite <- Hy in *.
    pose proof (days_before_month_mono (year d1) (month d1 + 1) (month d2)).
    lia.
  - rewrite <- Hy, <- Hm. lia.
Qed.

Lemma date_new_valid (y m d : Z) (dt : date) :
  date_new y m d = Some dt -> valid_date dt.
Proof.
  unfold date_new, valid_date.
  destruct (Z.leb_spec 1 y), (Z.leb_spec y 9999), (Z.leb_spec 1 m),
           (Z.leb_spec m 12), (Z.leb_spec 1 d),
           (Z.leb_spec d (_days_in_month y m));
    cbn [andb]; intros [= <-]; cbn [year month day]; lia.
Qed.

Lemma strptime_valid (s : string) (dt : date) :
  strptime s = Some dt -> valid_date dt.
Proof.
  unfold strptime.
  destruct (format_regex_match (list_ascii_of_string s))
    as [[[[y m] d] [| c rest]] |]; try discriminate.
  apply date_new_valid.
Qed.

Lemma days_until_parsed (today : date) (s : string) (dt : date) :
  strptime s = Some dt ->
  days_until today (JStr s) = Some (toordinal dt - toordinal today).
Proof.
  intros H. unfold days_until. cbn [truthy eq_str].
  destruct (String.eqb_spec s "") as [-> | _]; [discriminate H |].
  destruct (String.eqb_spec s "N/A") as [-> | _]; [discriminate H |].
  cbn [negb orb]. rewrite H. reflexivity.
Qed.

(** X14: [days_until] follows the calendar.  A string that parses
    denotes a date of the calendar, and of two strings that parse the
    one with the later date has the larger offset, whatever today is;
    so its status is not more urgent than that of the earlier one. *)
Theorem days_until_monotone (today : date) (s1 s2 : string) (d1 d2 : date) :
  strptime s1 = Some d1 -> strptime s2 = Some d2 -> date_lt d1 d2 ->
  exists o1 o2,
    days_until today (JStr s1) = Some o1
    /\ days_until today (JStr s2) = Some o2
    /\ o1 < o2
    /\ exists u1 u2,
         status_label today (JStr s1) = status_text u1
         /\ status_label today (JStr s2) = status_text u2
         /\ (rank u2 <= rank u1)%nat.
Proof.
  intros H1 H2 Hlt.
  pose proof (toordinal_lt d1 d2 (strptime_valid _ _ H1) (strptime_valid _ _ H2) Hlt).
  exists (toordinal d1 - toordinal today), (toordinal d2 - toordinal today).
  rewrite !status_label_class, (days_until_parsed today s1 d1 H1),
          (days_until_parsed today s2 d2 H2).
  split; [reflexivity |]. split; [reflexivity |]. split; [lia |].
  eexists _, _. split; [reflexivity |]. split; [reflexivity |].
  apply urgencyOf_spec_antitone. lia.
Qed.

Lemma days_until_monotone_witness :
  exists o1 o2,
    days_until today0 (JStr "2024-02-29") = Some o1
    /\ days_until today0 (JStr "2024-3-1") = Some o2
    /\ o1 < o2
    /\ exists u1 u2,
         status_label today0 (JStr "2024-02-29") = status_text u1
         /\ status_label today0 (JStr "2024-3-1") = status_text u2
         /\ (rank u2 <= rank u1)%nat.
Proof.
  apply (days_until_monotone today0 "2024-02-29" "2024-3-1"
           (mkdate 2024 2 29) (mkdate 2024 3 1)).
  - vm_compute. reflexivity.
  - vm_compute. reflexivity.
  - right. split; [reflexivity |]. left. cbn. lia.
Defined.

(** * The table of the page *)

Lemma build_rows_numbers (today : date) (l : list company) :
  col_company_number <$> build_rows today l = crn <$> l.
Proof.
  unfold build_rows. induction l as [| c l IH]; [reflexivity |].
  cbn [map]. rewrite !fmap_cons, IH. reflexivity.
Qed.

Lemma build_rows_elem (today : date) (l : list company) (r : row) :
  r ∈ build_rows today l -> exists c, c ∈ l /\ r = build_row today c.
Proof.
  unfold build_rows. induction l as [| c l IH]; cbn [map].
  - intros H. inversion H.
  - intros [-> | H]%elem_of_cons.
    + exists c. split; [apply list_elem_of_here | reflexivity].
    + destruct (IH H) as (c' & Hc' & ->).
      exists c'. split; [apply list_elem_of_further, Hc' | reflexivity].
Qed.

(** X15: for any [argsort] that meets the contract and either way of
    storing [None] in the column, the table of the
    page has exactly one row for every company the filter keeps and no
    other row; so with pairwise distinct registration numbers in the
    store no number appears twice.  Every row shows the labels of its
    own two dates, and under a choice other than "All" the more urgent
    of the two status labels of a row is the label of the choice. *)
Theorem my_companies_table_rows (today : date) (nan : bool)
    (argsort : list Z -> list nat) (filter_choice : string)
    (companies : list company) :
  argsort_contract argsort ->
  let table := my_companies_table today nan argsort filter_choice companies in
  Permutation (col_company_number <$> table)
              (crn <$> filtered_companies today filter_choice companies)
  /\ (NoDup (crn <$> companies) -> NoDup (col_company_number <$> table))
  /\ (forall r, r ∈ table ->
        exists c, c ∈ companies /\ r = build_row today c
          /\ col_accounts_status r = status_label today (col_accounts_due_date r)
          /\ col_cs01_status r = status_label today (col_cs01_due_date r)
          /\ (filter_choice <> "All"%string ->
              exists ua uc,
                col_accounts_status r = status_text ua
                /\ col_cs01_status r = status_text uc
                /\ overall_text (more_urgent ua uc) = filter_choice)).
Proof.
  intros Hok. cbn zeta. unfold my_companies_table.
  pose proof (sort_by_cs_days_perm today nan argsort
    (build_rows today (filtered_companies today filter_choice companies)) Hok)
    as Hperm.
  assert (Hsub : filtered_companies today filter_choice companies
                   `sublist_of` companies).
  { unfold filtered_companies.
    destruct (String.eqb filter_choice "All"); [reflexivity | apply sublist_filter]. }
  split; [| split].
  - rewrite Hperm, build_rows_numbers. reflexivity.
  - intros Hnd. rewrite Hperm, build_rows_numbers.
    eapply sublist_NoDup; [exact Hnd | apply fmap_sublist, Hsub].
  - intros r Hr. rewrite Hperm in Hr.
    apply build_rows_elem in Hr as (c & Hc & ->).
    exists c. split; [| split; [reflexivity |]].
    + revert Hc. unfold filtered_companies.
      destruct (String.eqb filter_choice "All"); [tauto |].
      rewrite list_elem_of_filter. tauto.
    + split; [reflexivity |]. split; [reflexivity |].
      intros Hne. rewrite filtered_companies_not_All in Hc by exact Hne.
      apply list_elem_of_filter in Hc as [Hstatus _].
      exists (urgencyOf_spec (days_until today (accounts_due c))),
             (urgencyOf_spec (days_until today (cs_due c))).
      cbn [build_row col_accounts_status col_cs01_status].
      rewrite !status_label_class. split; [reflexivity |].
      split; [reflexivity |].
      rewrite <- Hstatus. symmetry. apply company_overall_status_class.
Qed.

Lemma my_companies_table_rows_witness :
  Permutation
    (col_company_number
       <$> my_companies_table today0 true insertion_argsort "All"
             [ex1; ex2; ex3])
    (crn <$> filtered_companies today0 "All" [ex1; ex2; ex3]).
Proof.
  apply (my_companies_table_rows today0 true insertion_argsort "All"
           [ex1; ex2; ex3] insertion_argsort_contract).
Defined.

(** * The details select box *)

Lemma occurs_app (c : ascii) (a b : string) :
  occurs c (a ++ b) = occurs c a || occurs c b.
Proof.
  induction a as [| x a IH]; [reflexivity |].
  rewrite string_app_cons. cbn [occurs]. rewrite IH, orb_assoc. reflexivity.
Qed.

Lemma rsplit_last_app (sep : ascii) (a b : string) :
  occurs sep b = false -> rsplit_last sep (a ++ String sep b) = b.
Proof.
  intros Hb. induction a as [| x a IH].
  - change ("" ++ String sep b)%string with (String sep b).
    cbn [rsplit_last]. rewrite Hb, Ascii.eqb_refl. reflexivity.
  - rewrite string_app_cons. cbn [rsplit_last].
    rewrite occurs_app. cbn [occurs]. rewrite Ascii.eqb_refl, orb_true_r.
    exact IH.
Qed.

Lemma rstrip_snoc (c : ascii) (s : string) :
  rstrip c (s ++ String c "") = rstrip c s.
Proof.
  induction s as [| a s IH].
  - change ("" ++ String c "")%string with (String c "").
    cbn [rstrip]. rewrite Ascii.eqb_refl. reflexivity.
  - rewrite string_app_cons. cbn [rstrip]. rewrite IH. reflexivity.
Qed.

Lemma lstrip_snoc (c : ascii) (s : string) :
  lstrip c (s ++ String c "")
  = match lstrip c s with
    | EmptyString => EmptyString
    | t => (t ++ String c "")%string
    end.
Proof.
  induction s as [| a s IH].
  - change ("" ++ String c "")%string with (String c "").
    cbn [lstrip]. rewrite Ascii.eqb_refl. reflexivity.
  - rewrite string_app_cons. cbn [lstrip].
    destruct (Ascii.eqb a c); [exact IH | reflexivity].
Qed.

Lemma strip_snoc (c : ascii) (s : string) :
  strip c (s ++ String c "") = strip c s.
Proof.
  unfold strip. rewrite lstrip_snoc.
  destruct (lstrip c s) as [| a t] eqn:E; [reflexivity |].
  apply rstrip_snoc.
Qed.

Lemma strip_absent (c : ascii) (s : string) :
  occurs c s = false -> strip c s = s.
Proof.
  intros H. unfold strip.
  assert (Hl : lstrip c s = s).
  { destruct s as [| a s]; [reflexivity |]. cbn in H |- *.
    destruct (Ascii.eqb a c); [discriminate | reflexivity]. }
  rewrite Hl. clear Hl. induction s as [| a s IH]; [reflexivity |].
  cbn in H. apply orb_false_iff in H as [Ha Hs].
  cbn [rstrip]. rewrite (IH Hs), Ha. destruct s; reflexivity.
Qed.

(** X16: reading the registration number back from an option of the
    select box gives the number of the company, whatever its name, when
    the number holds no parenthesis; when it holds no opening
    parenthesis, it gives the number without its leading and trailing
    closing parentheses. *)
Theorem selected_crn_round_trip (str_of : json -> string) (c : company) :
  occurs "(" (crn c) = false ->
  selected_crn (select_option str_of c) = strip ")" (crn c)
  /\ (occurs ")" (crn c) = false ->
      selected_crn (select_option str_of c) = crn c).
Proof.
  intros Hopen.
  assert (Hsel : selected_crn (select_option str_of c) = strip ")" (crn c)).
  { unfold selected_crn, select_option.
    change (str_of (name c) ++ " (" ++ crn c ++ ")")%string
      with (str_of (name c) ++ " " ++ String "(" (crn c ++ ")"))%string.
    rewrite <- string_app_assoc, rsplit_last_app.
    - apply strip_snoc.
    - rewrite occurs_app, Hopen. reflexivity. }
  split; [exact Hsel |].
  intros Hclose. rewrite Hsel. apply strip_absent, Hclose.
Qed.

Lemma selected_crn_round_trip_witness :
  selected_crn (select_option (fun _ => "Example (UK) Ltd"%string) ex1)
  = "00000001"%string.
Proof.
  apply (proj2 (selected_crn_round_trip (fun _ => "Example (UK) Ltd"%string)
                  ex1 eq_refl) eq_refl).
Defined.

(** * The Dashboard *)

Lemma dashboard_search_outcome (today : date)
    (http : string -> exn + (Z * option json)) (crn_input : string) (w : world) :
  match fst (dashboard_search today http crn_input w) with
  | inl e => inl e
  | inr last => inr (save_data <$> last)
  end = fetch_outcome today http crn_input.
Proof.
  unfold fetch_outcome, dashboard_search, refresh_company_data, get_json, bind.
  cbn [file requests].
  destruct (http _) as [e | [status_code body]]; [reflexivity |].
  destruct (status_code =? 200); [| reflexivity].
  destruct body as [profile |]; [| reflexivity].
  destruct (truthy profile); [| reflexivity]. cbn [negb].
  destruct profile as [| b | k | s | l | members]; try reflexivity.
  cbn [dict_get ret].
  destruct (match assoc members "accounts" with Some v => v | None => JObj [] end);
    try reflexivity.
  destruct (match assoc members "confirmation_statement" with
            | Some v => v | None => JObj [] end);
    reflexivity.
Qed.

(** X17: the Dashboard search and the refresh read a registry answer in
    the same way.  The search raises, finds nothing or finds a company
    exactly when [refresh_company_data] does for the same number, and
    the record the "Save" button stores for a found company is the
    record the refresh returns; so refreshing a store that holds just
    this record, on the same day with the same answers, returns 1 and
    saves the same record again. *)
Theorem dashboard_search_matches_refresh (today : date)
    (http : string -> exn + (Z * option json)) (crn_input : string) (w : world) :
  match fst (dashboard_search today http crn_input w) with
  | inl e => inl e
  | inr last => inr (save_data <$> last)
  end = fetch_outcome today http crn_input
  /\ forall last,
       fst (dashboard_search today http crn_input w) = inr (Some last) ->
       crn (save_data last) = crn_input
       /\ forall reqs,
            fst (refresh_all_companies today http
                   {| file := Some [save_data last]; requests := reqs |})
            = inr 1
            /\ file (snd (refresh_all_companies today http
                            {| file := Some [save_data last]; requests := reqs |}))
               = Some [save_data last].
Proof.
  pose proof (dashboard_search_outcome today http crn_input w) as Hsame.
  split; [exact Hsame |].
  intros last Hlast. rewrite Hlast in Hsame. cbn in Hsame. symmetry in Hsame.
  pose proof (fetch_outcome_crn _ _ _ _ Hsame) as Hcrn.
  split; [exact Hcrn |]. intros reqs.
  rewrite refresh_all_companies_run, stored_mk.
  rewrite refresh_loop_ok.
  - cbn [omap list_omap app]. unfold fetched. rewrite Hcrn, Hsame.
    split; reflexivity.
  - intros c Hc. apply list_elem_of_singleton in Hc as ->.
    rewrite Hcrn. eexists. exact Hsame.
Qed.

Lemma dashboard_search_matches_refresh_witness :
  crn (save_data
         {| lc_crn := "00000001"; lc_name := JStr "Example Ltd";
            lc_status := JStr "active"; lc_sic := JNull;
            lc_address := JObj []; lc_date_of_creation := JNull;
            lc_accounts_due := JStr "2025-01-31"; lc_cs_due := JStr "N/A";
            lc_last_updated := "2024-03-02" |})
  = "00000001"%string.
Proof.
  refine (proj1 (proj2 (dashboard_search_matches_refresh today0 http0
                          "00000001" world0) _ _)).
  vm_compute. reflexivity.
Defined.

(** * Today's date reads back as offset 0 *)

Lemma list_ascii_of_string_app (a b : string) :
  list_ascii_of_string (a ++ b)
  = list_ascii_of_string a ++ list_ascii_of_string b.
Proof.
  induction a as [| x a IH]; [reflexivity |].
  rewrite string_app_cons. cbn [list_ascii_of_string app]. f_equal. exact IH.
Qed.

(** The year group on four digits. *)
Lemma format_regex_match_year (a b c d : ascii) (tail : list ascii) :
  is_digit a = true -> is_digit b = true -> is_digit c = true ->
  is_digit d = true ->
  format_regex_match (a :: b :: c :: d :: tail)
  = head (s2 ← re_lit "-" tail;
          '(m, s3) ← re_m s2;
          s4 ← re_lit "-" s3;
          '(dd, s5) ← re_d s4;
          [(1000 * int_of_digit a + 100 * int_of_digit b
            + 10 * int_of_digit c + int_of_digit d, m, dd, s5)]).
Proof.
  intros Ha Hb Hc Hd. unfold format_regex_match. cbn [re_Y].
  rewrite Ha, Hb, Hc, Hd. cbn [andb mbind list_bind]. rewrite app_nil_r.
  reflexivity.
Qed.

Lemma year_digits_all :
  forallb (fun n => year_digits_ok (Z.of_nat n)) (seq 1 (Z.to_nat 9999)) = true.
Proof. vm_compute. reflexivity. Qed.

Lemma year_digits (y : Z) :
  1 <= y <= 9999 ->
  exists a b c d,
    list_ascii_of_string (zfill 4 (str y)) = [a; b; c; d]
    /\ is_digit a = true /\ is_digit b = true /\ is_digit c = true
    /\ is_digit d = true
    /\ 1000 * int_of_digit a + 100 * int_of_digit b
       + 10 * int_of_digit c + int_of_digit d = y.
Proof.
  intros Hy. pose proof year_digits_all as Hall.
  rewrite forallb_forall in Hall.
  specialize (Hall (Z.to_nat y)).
  rewrite Z2Nat.id in Hall by lia.
  assert (Hin : In (Z.to_nat y) (seq 1 (Z.to_nat 9999))) by (apply in_seq; lia).
  specialize (Hall Hin). unfold year_digits_ok in Hall.
  destruct (list_ascii_of_string (zfill 4 (str y)))
    as [| a [| b [| c [| d [| e l]]]]]; try discriminate Hall.
  apply andb_true_iff in Hall as [Hall Hv].
  apply andb_true_iff in Hall as [Hall Hd].
  apply andb_true_iff in Hall as [Hall Hc].
  apply andb_true_iff in Hall as [Ha Hb].
  apply Z.eqb_eq in Hv.
  exists a, b, c, d. repeat split; assumption.
Qed.

Lemma range_cases (n : Z) (k : nat) :
  1 <= n <= Z.of_nat k -> In n (map Z.of_nat (seq 1 k)).
Proof.
  intros H. apply in_map_iff. exists (Z.to_nat n).
  split; [lia | apply in_seq; lia].
Qed.

(** The month and day groups on two digits each. *)
Lemma format_regex_match_tail (Y m dd : Z) :
  1 <= m <= 12 -> 1 <= dd <= 31 ->
  head (s2 ← re_lit "-"
               (list_ascii_of_string
                  ("-" ++ zfill 2 (str m) ++ "-" ++ zfill 2 (str dd)));
        '(m', s3) ← re_m s2;
        s4 ← re_lit "-" s3;
        '(d', s5) ← re_d s4;
        [(Y, m', d', s5)])
  = Some (Y, m, dd, []).
Proof.
  intros Hm Hd.
  apply (range_cases m 12) in Hm. apply (range_cases dd 31) in Hd.
  cbn [map seq In] in Hm, Hd.
  repeat (destruct Hm as [<- | Hm]; [| try contradiction]);
    repeat (destruct Hd as [<- | Hd]; [| try contradiction]);
    vm_compute; reflexivity.
Qed.

Lemma strptime_strftime (d : date) :
  valid_date d -> strptime (strftime d) = Some d.
Proof.
  destruct d as [y m dd]. unfold valid_date. cbn [year month day].
  intros (Hy & Hm & Hd). unfold strptime, strftime. cbn [year month day].
  rewrite list_ascii_of_string_app.
  destruct (year_digits y Hy) as (a & b & c & e & -> & Ha & Hb & Hc & He & Hv).
  cbn [app]. rewrite format_regex_match_year by assumption.
  rewrite Hv, format_regex_match_tail.
  - unfold date_new.
    destruct (Z.leb_spec 1 y), (Z.leb_spec y 9999), (Z.leb_spec 1 m),
             (Z.leb_spec m 12), (Z.leb_spec 1 dd),
             (Z.leb_spec dd (_days_in_month y m)); try lia.
    reflexivity.
  - exact Hm.
  - split; [lia |]. unfold _days_in_month in Hd.
    destruct ((m =? 2) && _is_leap y); [lia |].
    destruct (month_cases m Hm)
      as [-> | [-> | [-> | [-> | [-> | [-> | [-> | [-> | [-> | [-> | [-> | ->]]]]]]]]]]];
      calendar_compute; lia.
Qed.

(** X18: for every date of the calendar with a year of four digits,
    the text [strftime] writes is read back by [strptime] as the same
    date.  So the text of today has
    the day offset 0, is labelled "in 0 days" and "Due in 7 days", and
    the [last_updated] stamp of a record refreshed today has offset 0. *)
Theorem days_until_today (today : date) :
  valid_date today -> 1000 <= year today ->
  strptime (strftime today) = Some today
  /\ days_until today (JStr (strftime today)) = Some 0
  /\ relative_label today (JStr (strftime today)) = "in 0 days"%string
  /\ status_label today (JStr (strftime today)) = "🟠 Due in 7 days"%string
  /\ forall http n r,
       fetch_outcome today http n = inr (Some r) ->
       days_until today (JStr (last_updated r)) = Some 0.
Proof.
  intros Hvalid _.
  pose proof (strptime_strftime today Hvalid) as Hparse.
  assert (Hzero : days_until today (JStr (strftime today)) = Some 0)
    by (rewrite (days_until_parsed today _ today Hparse); f_equal; lia).
  split; [exact Hparse |]. split; [exact Hzero |].
  split; [unfold relative_label; rewrite Hzero; reflexivity |].
  split; [unfold status_label; rewrite Hzero; reflexivity |].
  intros http n r Hr.
  assert (Hstamp : last_updated r = strftime today); [| rewrite Hstamp; exact Hzero].
  revert Hr. unfold fetch_outcome, refresh_company_data, get_json, bind.
  cbn [file requests].
  destruct (http _) as [e | [status_code body]]; [discriminate |].
  destruct (status_code =? 200); [| discriminate].
  destruct body as [profile |]; [| discriminate].
  destruct (truthy profile); [| discriminate]. cbn [negb].
  destruct profile as [| b | k | s | l | members]; try discriminate.
  cbn [dict_get ret].
  destruct (match assoc members "accounts" with Some v => v | None => JObj [] end);
    try discriminate.
  destruct (match assoc members "confirmation_statement" with
            | Some v => v | None => JObj [] end);
    try discriminate.
  cbn [dict_get ret fst]. intros [= <-]. reflexivity.
Qed.

Lemma days_until_today_witness :
  days_until today0 (JStr (strftime today0)) = Some 0.
Proof.
  apply (days_until_today today0); vm_compute;
    repeat split; discriminate.
Defined.

(** * Rows with a date that does not parse *)

(** X19: for any [argsort] that meets the contract, the sorted table has
    as many rows as the table it was given, and a row without a sort key
    stands after every row that has one.  Without a key are the rows
    whose CS01 date is neither [None], "N/A" nor empty and has no day
    offset (text that does not parse) and, when pandas stores [None] as
    NaN, the rows whose date is [None]; a key have the rows whose date
    is "N/A" or empty (99999) or parses and, when pandas keeps [None],
    the rows whose date is [None] (99999). *)
Theorem sort_by_cs_days_malformed_last (today : date) (nan : bool)
    (argsort : list Z -> list nat) (df : list row) :
  argsort_contract argsort ->
  length (sort_by_cs_days today nan argsort df) = length df
  /\ forall i j r1 r2,
       sort_by_cs_days today nan argsort df !! i = Some r1 ->
       sort_by_cs_days today nan argsort df !! j = Some r2 ->
       ((in_sentinels (col_cs01_due_date r1) = false
         /\ days_until today (col_cs01_due_date r1) = None)
        \/ (nan = true /\ col_cs01_due_date r1 = JNull)) ->
       (col_cs01_due_date r2 = JStr "" \/ col_cs01_due_date r2 = JStr "N/A"
        \/ days_until today (col_cs01_due_date r2) <> None
        \/ (nan = false /\ col_cs01_due_date r2 = JNull)) ->
       (j < i)%nat.
Proof.
  intros Hok. split.
  - apply Permutation_length, sort_by_cs_days_perm, Hok.
  - intros i j r1 r2 Hi Hj H1 H2.
    pose proof (sort_by_cs_days_sorted today nan argsort df Hok) as Hsorted.
    assert (Hk1 : row_key today nan r1 = None).
    { destruct H1 as [[Hs1 Hd1] | [-> Hn1]].
      - unfold row_key, cs_days, df_cell.
        destruct (col_cs01_due_date r1); try discriminate Hs1;
          rewrite Hs1; exact Hd1.
      - unfold row_key. rewrite Hn1. reflexivity. }
    assert (Hk2 : row_key today nan r2 <> None).
    { rewrite row_key_cases.
      destruct H2 as [-> | [-> | [H2 | [-> ->]]]]; try discriminate.
      destruct (days_until today (col_cs01_due_date r2)) as [o |] eqn:Ho;
        [| destruct H2; reflexivity].
      destruct (days_until_Some_inv today _ o Ho) as (s & Hs2 & Hns).
      rewrite Hs2 in Ho |- *. rewrite Hns, Ho. discriminate. }
    destruct (Nat.lt_total i j) as [Hij | [-> | Hji]]; [| | exact Hji].
    + pose proof (StronglySorted_lookup_lt _ _ i j r1 r2 Hsorted Hi Hj Hij) as Hle.
      cbn beta in Hle. rewrite Hk1 in Hle.
      destruct (row_key today nan r2); [destruct Hle | congruence].
    + rewrite Hi in Hj. injection Hj as ->. congruence.
Qed.

Lemma sort_by_cs_days_malformed_last_witness :
  sort_by_cs_days today0 true insertion_argsort [row_bad; row_na; row_a]
    !! 2%nat = Some row_bad
  /\ (1 < 2)%nat.
Proof.
  split; [vm_compute; reflexivity |].
  apply (proj2 (sort_by_cs_days_malformed_last today0 true insertion_argsort
                  [row_bad; row_na; row_a] insertion_argsort_contract)
           2%nat 1%nat row_bad row_na).
  - vm_compute. reflexivity.
  - vm_compute. reflexivity.
  - left. split; vm_compute; reflexivity.
  - right. left. reflexivity.
Defined.
